(** * The order-placement transaction of [sales.py]

    A shallow embedding of [DatabaseManager] (the cart and order methods of
    [src/sales.py]) and of the SQLite connection it drives, followed by the
    properties of [add_to_cart] and [create_order].

    Conventions of the embedding.
    - A table with an [INTEGER PRIMARY KEY] that the code only reaches by key
      ([Product]) is a finite map from the key to the row; a table that the
      code scans ([Cart]) or only appends to is the list of its rows in rowid
      order, which is the order in which SQLite returns them.
    - [INTEGER] columns are [Z].  The 64-bit bound of SQLite is met where
      Python integers of any size enter the database: the parameters of
      [add_to_cart] are bound before each statement, and one that does not
      fit raises [OverflowError].
    - The [DECIMAL(10,2)] columns ([price], [amount], [total_amount],
      [unit_price]) are carried as a [Z] count of the smallest currency
      unit.  The program computes them in IEEE doubles; the rounding of that
      arithmetic is outside the model, and no property below compares an
      amount with a sum computed in another way.
    - The connection is a pair of database images: the committed one and the
      one the open transaction works on.  Statements act on the working image,
      [commit] publishes it, [rollback] discards it.
    - A statement may raise [sqlite3.Error]; which ones do is fixed by a fault
      schedule carried in the state, so every theorem below quantifies over
      the storage failures as well.
    - [datetime.now()] and [uuid.uuid4()] read from two input streams. *)

From Stdlib Require Import ZArith Lia Ascii String.
From stdpp Require Import gmap strings list sorting pretty.

Local Open Scope Z_scope.

(** ** Rows and tables *)

Module Schema.

(** [Product], keyed by [product_id]. *)
Record ProductRow := mkProduct {
  name : string;
  description : string;
  price : Z;
  stock : Z;
  category_id : Z
}.

(** [Cart (cart_id, customer_id, product_id, quantity, added_date)]. *)
Record CartRow := mkCart {
  cart_id : Z;
  cart_customer_id : Z;
  cart_product_id : Z;
  cart_quantity : Z;
  added_date : Z
}.

(** [Payment (payment_id, customer_id, payment_method, amount, payment_date)]. *)
Record PaymentRow := mkPayment {
  payment_id : Z;
  payment_customer_id : Z;
  payment_method : string;
  amount : Z;
  payment_date : Z
}.

(** [Shipment]: the columns [create_order] fills; [city], [state], [country]
    and [zip_code] stay NULL. *)
Record ShipmentRow := mkShipment {
  shipment_id : Z;
  shipment_date : Z;
  address : string;
  tracking_number : string
}.

(** ["Order" (order_id, customer_id, order_date, total_amount, payment_id,
    shipment_id, status)]. *)
Record OrderRow := mkOrder {
  order_id : Z;
  order_customer_id : Z;
  order_date : Z;
  total_amount : Z;
  order_payment_id : Z;
  order_shipment_id : Z;
  status : string
}.

(** [Order_Item (order_item_id, order_id, product_id, quantity, unit_price)]. *)
Record OrderItemRow := mkOrderItem {
  order_item_id : Z;
  item_order_id : Z;
  item_product_id : Z;
  item_quantity : Z;
  unit_price : Z
}.

(** The tables read or written by the cart and order methods.  [Customer],
    [Category], [Wishlist] and [Review] are never touched by them. *)
Record DB := mkDB {
  Product : gmap Z ProductRow;
  Cart : list CartRow;
  Payment : list PaymentRow;
  Shipment : list ShipmentRow;
  Order : list OrderRow;
  Order_Item : list OrderItemRow
}.

(** The schema's default for [Order.status]. *)
Definition status_default : string := "Pending".

End Schema.
Export Schema.

(** ** SQL statements

    A SELECT is a function from the database image to its rows.  Any other
    statement is a function from the image to the new image, the number of
    rows it touched ([cursor.rowcount]) and, for an INSERT, the rowid of the
    new row ([cursor.lastrowid]). *)

Module Sql.

Record Result := mkResult {
  image : DB;
  touched : Z;
  new_rowid : option Z
}.

Definition statement : Type := DB → Result.

(** The rowid SQLite gives a new row of a table without AUTOINCREMENT: 1 in an
    empty table, otherwise one more than the largest rowid in use (the end of
    the 64-bit range is never reached here). *)
Definition next_rowid (ids : list Z) : Z :=
  match ids with
  | [] => 1
  | i :: rest => foldr Z.max i rest + 1
  end.

(** [SELECT cart_id, quantity FROM Cart WHERE customer_id = ? AND product_id = ?] *)
Definition select_cart_line (customer product : Z) (db : DB) : list (Z * Z) :=
  map (λ r, (cart_id r, cart_quantity r))
      (filter (λ r, cart_customer_id r = customer ∧ cart_product_id r = product)
              (Cart db)).

Definition set_quantity (q : Z) (r : CartRow) : CartRow :=
  mkCart (cart_id r) (cart_customer_id r) (cart_product_id r) q (added_date r).

(** [SET quantity = ? WHERE cart_id = ?] on one row. *)
Definition bump (q id : Z) (r : CartRow) : CartRow :=
  if decide (cart_id r = id) then set_quantity q r else r.

(** [UPDATE Cart SET quantity = ? WHERE cart_id = ?] *)
Definition update_cart_quantity (new_quantity id : Z) : statement := λ db,
  mkResult
    (mkDB (Product db)
          (map (bump new_quantity id) (Cart db))
          (Payment db) (Shipment db) (Order db) (Order_Item db))
    (Z.of_nat (length (filter (λ r, cart_id r = id) (Cart db))))
    None.

(** [INSERT INTO Cart (customer_id, product_id, quantity, added_date)
    VALUES (?, ?, ?, ?)] *)
Definition insert_cart (customer product quantity date : Z) : statement := λ db,
  let id := next_rowid (map cart_id (Cart db)) in
  mkResult
    (mkDB (Product db)
          (Cart db ++ [mkCart id customer product quantity date])
          (Payment db) (Shipment db) (Order db) (Order_Item db))
    1 (Some id).

(** [DELETE FROM Cart WHERE cart_id = ?] *)
Definition delete_cart_line (id : Z) : statement := λ db,
  mkResult
    (mkDB (Product db)
          (filter (λ r, cart_id r ≠ id) (Cart db))
          (Payment db) (Shipment db) (Order db) (Order_Item db))
    (Z.of_nat (length (filter (λ r, cart_id r = id) (Cart db))))
    None.

(** One row of the join in [get_cart_items], as the dict built from it. *)
Record CartItem := mkItem {
  ci_cart_id : Z;
  ci_product_id : Z;
  ci_name : string;
  ci_price : Z;
  ci_quantity : Z;
  ci_total_price : Z
}.

(** The inner join of one cart row with [Product]: no product, no row. *)
Definition join_product (db : DB) (r : CartRow) : option CartItem :=
  match Product db !! cart_product_id r with
  | Some p => Some (mkItem (cart_id r) (cart_product_id r) (name p) (price p)
                           (cart_quantity r) (price p * cart_quantity r))
  | None => None
  end.

(** [SELECT c.cart_id, c.product_id, p.name, p.price, c.quantity,
    (p.price * c.quantity) FROM Cart c JOIN Product p
    ON c.product_id = p.product_id WHERE c.customer_id = ?] *)
Definition select_cart_items (customer : Z) (db : DB) : list CartItem :=
  omap (join_product db)
       (filter (λ r, cart_customer_id r = customer) (Cart db)).

(** [INSERT INTO Payment (customer_id, payment_method, amount, payment_date)] *)
Definition insert_payment (customer : Z) (method : string) (amt date : Z)
    : statement := λ db,
  let id := next_rowid (map payment_id (Payment db)) in
  mkResult
    (mkDB (Product db) (Cart db)
          (Payment db ++ [mkPayment id customer method amt date])
          (Shipment db) (Order db) (Order_Item db))
    1 (Some id).

(** [INSERT INTO Shipment (shipment_date, address, tracking_number)] *)
Definition insert_shipment (date : Z) (addr tracking : string) : statement :=
  λ db,
  let id := next_rowid (map shipment_id (Shipment db)) in
  mkResult
    (mkDB (Product db) (Cart db) (Payment db)
          (Shipment db ++ [mkShipment id date addr tracking])
          (Order db) (Order_Item db))
    1 (Some id).

(** [INSERT INTO "Order" (customer_id, order_date, total_amount, payment_id,
    shipment_id, status)] *)
Definition insert_order (customer date total pay ship : Z) (st : string)
    : statement := λ db,
  let id := next_rowid (map order_id (Order db)) in
  mkResult
    (mkDB (Product db) (Cart db) (Payment db) (Shipment db)
          (Order db ++ [mkOrder id customer date total pay ship st])
          (Order_Item db))
    1 (Some id).

(** [INSERT INTO Order_Item (order_id, product_id, quantity, unit_price)] *)
Definition insert_order_item (order product quantity unit : Z) : statement :=
  λ db,
  let id := next_rowid (map order_item_id (Order_Item db)) in
  mkResult
    (mkDB (Product db) (Cart db) (Payment db) (Shipment db) (Order db)
          (Order_Item db ++ [mkOrderItem id order product quantity unit]))
    1 (Some id).

Definition take_stock (quantity : Z) (p : ProductRow) : ProductRow :=
  mkProduct (name p) (description p) (price p) (stock p - quantity)
            (category_id p).

(** [UPDATE Product SET stock = stock - ? WHERE product_id = ?] *)
Definition update_stock (quantity product : Z) : statement := λ db,
  mkResult
    (mkDB (alter (take_stock quantity) product (Product db))
          (Cart db) (Payment db) (Shipment db) (Order db) (Order_Item db))
    (if Product db !! product is Some _ then 1 else 0)
    None.

(** [DELETE FROM Cart WHERE customer_id = ?] *)
Definition delete_cart (customer : Z) : statement := λ db,
  mkResult
    (mkDB (Product db)
          (filter (λ r, cart_customer_id r ≠ customer) (Cart db))
          (Payment db) (Shipment db) (Order db) (Order_Item db))
    (Z.of_nat (length (filter (λ r, cart_customer_id r = customer) (Cart db))))
    None.

End Sql.
Export Sql.

(** ** The connection and its cursor *)

Module Conn.

(** Exceptions that reach the code: the storage layer's [sqlite3.Error], and
    the [OverflowError] that the [sqlite3] module raises when it is handed a
    Python [int] that does not fit SQLite's 64-bit INTEGER. *)
Inductive exn := sqlite3_Error | OverflowError.

Definition exn_str (e : exn) : string :=
  match e with
  | sqlite3_Error => "sqlite3.Error"
  | OverflowError => "Python int too large to convert to SQLite INTEGER"
  end.

(** The integers SQLite stores: 64 bits, signed. *)
Definition int64 (z : Z) : Prop :=
  -9223372036854775808 ≤ z ∧ z ≤ 9223372036854775807.

#[global] Instance int64_dec z : Decision (int64 z).
Proof. unfold int64. apply _. Defined.

Inductive outcome (A : Type) :=
| Ok (a : A)
| Raise (e : exn).
Arguments Ok {A} a.
Arguments Raise {A} e.

(** The state threaded through [DatabaseManager]'s methods. *)
Record World := mkWorld {
  committed : DB;          (* what a rollback restores *)
  working : DB;            (* what statements read and write *)
  lastrowid : Z;           (* [cursor.lastrowid] *)
  rowcount : Z;            (* [cursor.rowcount] *)
  faults : list bool;      (* [true]: the next call into SQLite raises *)
  clock : list Z;          (* the values of [datetime.now()] to come *)
  uuids : list string;     (* the values of [uuid.uuid4().hex] to come *)
  st_errors : list string  (* messages shown by [st.error] *)
}.

Definition M (A : Type) : Type := World → outcome A * World.

#[global] Instance M_ret : MRet M := λ A a w, (Ok a, w).
#[global] Instance M_bind : MBind M := λ A B f m w,
  match m w with
  | (Ok a, w') => f a w'
  | (Raise e, w') => (Raise e, w')
  end.

(** [try: body except Exception as e: handler e] *)
Definition try_except {A} (body : M A) (handler : exn → M A) : M A := λ w,
  match body w with
  | (Ok a, w') => (Ok a, w')
  | (Raise e, w') => handler e w'
  end.

(** The storage layer decides whether the call in progress fails. *)
Definition fallible : M unit := λ w,
  let w' := mkWorld (committed w) (working w) (lastrowid w) (rowcount w)
                    (tail (faults w)) (clock w) (uuids w) (st_errors w) in
  match faults w with
  | true :: _ => (Raise sqlite3_Error, w')
  | _ => (Ok (), w')
  end.

Definition fetch {A} (q : DB → A) : M A := λ w, (Ok (q (working w)), w).

Definition apply_result (s : statement) : M unit := λ w,
  let r := s (working w) in
  (Ok (), mkWorld (committed w) (image r)
                  (default (lastrowid w) (new_rowid r)) (touched r)
                  (faults w) (clock w) (uuids w) (st_errors w)).

Definition publish : M unit := λ w,
  (Ok (), mkWorld (working w) (working w) (lastrowid w) (rowcount w)
                  (faults w) (clock w) (uuids w) (st_errors w)).

(** The integer parameters of a [cursor.execute(query, params)] are bound
    before the statement runs; one that is not an [int64] raises
    [OverflowError] and the statement is not run. *)
Definition cursor_bind (params : list Z) : M unit := λ w,
  if decide (Forall int64 params) then (Ok (), w) else (Raise OverflowError, w).

(** [cursor.execute] of a SELECT followed by [fetchall]. *)
Definition cursor_query {A} (q : DB → A) : M A := fallible;; fetch q.

(** [cursor.execute] of an INSERT, UPDATE or DELETE. *)
Definition cursor_execute (s : statement) : M unit := fallible;; apply_result s.

Definition cursor_lastrowid : M Z := λ w, (Ok (lastrowid w), w).
Definition cursor_rowcount : M Z := λ w, (Ok (rowcount w), w).

(** [self.conn.commit()] *)
Definition conn_commit : M unit := fallible;; publish.

(** [self.conn.rollback()]; taken not to fail. *)
Definition conn_rollback : M unit := λ w,
  (Ok (), mkWorld (committed w) (committed w) (lastrowid w) (rowcount w)
                  (faults w) (clock w) (uuids w) (st_errors w)).

(** [datetime.now()] *)
Definition datetime_now : M Z := λ w,
  (Ok (hd 0 (clock w)),
   mkWorld (committed w) (working w) (lastrowid w) (rowcount w) (faults w)
           (tail (clock w)) (uuids w) (st_errors w)).

(** [uuid.uuid4().hex] *)
Definition uuid4_hex : M string := λ w,
  (Ok (hd "" (uuids w)),
   mkWorld (committed w) (working w) (lastrowid w) (rowcount w) (faults w)
           (clock w) (tail (uuids w)) (st_errors w)).

(** [st.error(msg)] *)
Definition st_error (msg : string) : M unit := λ w,
  (Ok (), mkWorld (committed w) (working w) (lastrowid w) (rowcount w)
                  (faults w) (clock w) (uuids w) (st_errors w ++ [msg])).

(** A [for] loop over a list. *)
Fixpoint for_each {A} (l : list A) (body : A → M unit) : M unit :=
  match l with
  | [] => mret ()
  | x :: rest => body x;; for_each rest body
  end.

End Conn.
Export Conn.

(** ** Strings *)

Module Str.

(** [str.upper] on one character (ASCII letters). *)
Definition upper_ascii (c : ascii) : ascii :=
  let n := nat_of_ascii c in
  if (Nat.leb 97 n && Nat.leb n 122)%bool then ascii_of_nat (n - 32) else c.

Fixpoint upper (s : string) : string :=
  match s with
  | EmptyString => EmptyString
  | String c rest => String (upper_ascii c) (upper rest)
  end.

(** [s[:n]] *)
Fixpoint prefix (n : nat) (s : string) : string :=
  match n, s with
  | S k, String c rest => String c (prefix k rest)
  | _, _ => EmptyString
  end.

End Str.

(** ** [DatabaseManager] *)

Module DatabaseManager.

(** Python's [sum] over numbers. *)
Definition sum (l : list Z) : Z := fold_left Z.add l 0.

Definition execute_query {A} (query : DB → A) : M A := cursor_query query.

Definition execute_update (query : statement) : M Z :=
  cursor_execute query;;
  conn_commit;;
  cursor_rowcount.

(** The parameters are Python [int]s of any size: each call binds them
    ([cursor_bind]) before its statement runs.  The SELECT binds the customer
    and the product, the UPDATE the new quantity and the key of the row, the
    INSERT the customer, the product and the quantity. *)
Definition add_to_cart (customer_id product_id quantity : Z) : M bool :=
  cursor_bind [customer_id; product_id];;
  existing ← execute_query (select_cart_line customer_id product_id);
  match existing with
  | first :: _ =>
      let new_quantity := first.2 + quantity in
      cursor_bind [new_quantity; first.1];;
      execute_update (update_cart_quantity new_quantity first.1);;
      mret true
  | [] =>
      now ← datetime_now;
      cursor_bind [customer_id; product_id; quantity];;
      execute_update (insert_cart customer_id product_id quantity now);;
      mret true
  end.

Definition get_cart_items (customer_id : Z) : M (list CartItem) :=
  execute_query (select_cart_items customer_id).

Definition remove_from_cart (cart_id : Z) : M bool :=
  n ← execute_update (delete_cart_line cart_id);
  mret (bool_decide (0 < n)).

Definition create_order (customer_id : Z) (payment_method shipping_address : string)
    : M (option Z) :=
  try_except
    (cart_items ← get_cart_items customer_id;
     match cart_items with
     | [] => mret None
     | _ :: _ =>
         let total_amount := sum (map ci_total_price cart_items) in
         now ← datetime_now;
         cursor_execute (insert_payment customer_id payment_method total_amount now);;
         payment_id ← cursor_lastrowid;
         hex ← uuid4_hex;
         let tracking_number := "UNIQLO" +:+ Str.upper (Str.prefix 8 hex) in
         now ← datetime_now;
         cursor_execute (insert_shipment now shipping_address tracking_number);;
         shipment_id ← cursor_lastrowid;
         now ← datetime_now;
         cursor_execute (insert_order customer_id now total_amount payment_id
                                      shipment_id "Processing");;
         order_id ← cursor_lastrowid;
         for_each cart_items (λ item,
           cursor_execute (insert_order_item order_id (ci_product_id item)
                                             (ci_quantity item) (ci_price item));;
           cursor_execute (update_stock (ci_quantity item) (ci_product_id item)));;
         cursor_execute (delete_cart customer_id);;
         conn_commit;;
         mret (Some order_id)
     end)
    (λ e,
     conn_rollback;;
     st_error ("Error creating order: " +:+ exn_str e);;
     mret None).

End DatabaseManager.
Export DatabaseManager.

(** ** The vocabulary of the properties *)

Module Spec.

(** No transaction is open: the working image is the committed one.  Every
    method but [create_order] commits each statement it runs, so this is the
    state in which a method is entered. *)
Definition clean (w : World) : Prop := working w = committed w.

(** The customer's rows of [Cart]. *)
Definition cart_of (customer : Z) (db : DB) : list CartRow :=
  filter (λ r, cart_customer_id r = customer) (Cart db).

(** The rows of [Cart] for one customer and one product. *)
Definition lines_of (customer product : Z) (db : DB) : list CartRow :=
  filter (λ r, cart_customer_id r = customer ∧ cart_product_id r = product)
         (Cart db).

(** The rows of [Order_Item] of one order. *)
Definition items_of_order (order : Z) (db : DB) : list OrderItemRow :=
  filter (λ i, item_order_id i = order) (Order_Item db).

(** The quantity of a product in a list of cart items. *)
Definition ordered_quantity (product : Z) (items : list CartItem) : Z :=
  sum (map ci_quantity (filter (λ it, ci_product_id it = product) items)).

(** Primary keys are unique. *)
Definition cart_keys_ok (db : DB) : Prop := NoDup (map cart_id (Cart db)).

(** [Order_Item.order_id REFERENCES "Order"(order_id)]. *)
Definition order_items_ref_ok (db : DB) : Prop :=
  Forall (λ i, item_order_id i ∈ map order_id (Order db)) (Order_Item db).

(** [Cart.product_id REFERENCES Product(product_id)], for one customer. *)
Definition cart_ref_ok (customer : Z) (db : DB) : Prop :=
  Forall (λ r, is_Some (Product db !! cart_product_id r)) (cart_of customer db).

#[global] Instance cart_keys_ok_dec db : Decision (cart_keys_ok db).
Proof. unfold cart_keys_ok. apply _. Defined.

#[global] Instance order_items_ref_ok_dec db : Decision (order_items_ref_ok db).
Proof. unfold order_items_ref_ok. apply _. Defined.

#[global] Instance cart_ref_ok_dec customer db :
  Decision (cart_ref_ok customer db).
Proof. unfold cart_ref_ok. apply _. Defined.

(** The order items of step 3d, numbered from [first_id]. *)
Fixpoint new_order_items (first_id order : Z) (items : list CartItem)
    : list OrderItemRow :=
  match items with
  | [] => []
  | it :: rest =>
      mkOrderItem first_id order (ci_product_id it) (ci_quantity it) (ci_price it)
      :: new_order_items (first_id + 1) order rest
  end.

(** The stock decrements of step 3d. *)
Definition decrement_all (items : list CartItem) (products : gmap Z ProductRow)
    : gmap Z ProductRow :=
  foldl (λ m it, alter (take_stock (ci_quantity it)) (ci_product_id it) m)
        products items.

(** The unit of work of [placeOrder], after the specification (section 4.2,
    steps 2 and 3a to 3e): the payment, the shipment, the order, one order
    item and one stock decrement per cart line, and the cart cleared. *)
Definition spec_place_order (customer : Z) (method addr : string)
    (t_payment t_shipment t_order : Z) (tracking : string) (db : DB) : DB :=
  let lines := select_cart_items customer db in
  let total := sum (map ci_total_price lines) in
  let pay := next_rowid (map payment_id (Payment db)) in
  let ship := next_rowid (map shipment_id (Shipment db)) in
  let ord := next_rowid (map order_id (Order db)) in
  mkDB (decrement_all lines (Product db))
       (filter (λ r, cart_customer_id r ≠ customer) (Cart db))
       (Payment db ++ [mkPayment pay customer method total t_payment])
       (Shipment db ++ [mkShipment ship t_shipment addr tracking])
       (Order db ++ [mkOrder ord customer t_order total pay ship "Processing"])
       (Order_Item db ++
          new_order_items (next_rowid (map order_item_id (Order_Item db)))
                          ord lines).

(** The inputs [create_order] reads from the clock and from [uuid4]. *)
Definition t_payment_of (w : World) : Z := hd 0 (clock w).
Definition t_shipment_of (w : World) : Z := hd 0 (tail (clock w)).
Definition t_order_of (w : World) : Z := hd 0 (tail (tail (clock w))).
Definition tracking_of (w : World) : string :=
  "UNIQLO" +:+ Str.upper (Str.prefix 8 (hd "" (uuids w))).

(** The database a successful [create_order] started in [w] must leave. *)
Definition placed (customer : Z) (method addr : string) (w : World) : DB :=
  spec_place_order customer method addr (t_payment_of w) (t_shipment_of w)
                   (t_order_of w) (tracking_of w) (working w).

(** The quantity a customer's cart rows hold of a product. *)
Definition cart_quantity_of (customer product : Z) (db : DB) : Z :=
  sum (map cart_quantity (lines_of customer product db)).





(** One turn of the loop of [create_order]: the INSERT, then the UPDATE. *)
Definition item_step (order : Z) (db : DB) (it : CartItem) : DB :=
  image (update_stock (ci_quantity it) (ci_product_id it)
           (image (insert_order_item order (ci_product_id it) (ci_quantity it)
                                     (ci_price it) db))).

(** What [create_order] returns and leaves behind, for every fault schedule:
    [None] and nothing published, or the new order id and the whole unit of
    work published.  Without faults, [None] means the cart was empty. *)
Definition order_post (q : bool) (c db : DB) (ck : list Z) (u : list string)
    (customer : Z) (method addr : string) (r : option Z) (w : World) : Prop :=
  match r with
  | None =>
      committed w = c ∧ (working w = db ∨ working w = c) ∧
      (q = true → select_cart_items customer db = [])
  | Some order =>
      order = next_rowid (map order_id (Order db)) ∧
      select_cart_items customer db ≠ [] ∧
      committed w =
        spec_place_order customer method addr (hd 0 ck) (hd 0 (tail ck))
          (hd 0 (tail (tail ck)))
          ("UNIQLO" +:+ Str.upper (Str.prefix 8 (hd ""%string u))) db ∧
      working w = committed w
  end.

(** The cart image [add_to_cart] aims at: the first matching row updated, or
    a row appended. *)
Definition cart_target (customer product quantity now : Z) (db : DB) : DB :=
  match select_cart_line customer product db with
  | first :: _ => image (update_cart_quantity (first.2 + quantity) first.1 db)
  | [] => image (insert_cart customer product quantity now db)
  end.

(** Every integer that [add_to_cart] hands to SQLite is an [int64]: the
    customer and the product; with a row for the pair, the sum of its
    quantity and the quantity given, and its key; with none, the quantity
    given. *)
Definition fits (customer product quantity : Z) (db : DB) : Prop :=
  int64 customer ∧ int64 product ∧
  match lines_of customer product db with
  | first :: _ => int64 (cart_quantity first + quantity) ∧ int64 (cart_id first)
  | [] => int64 quantity
  end.

#[global] Instance fits_dec customer product quantity db :
  Decision (fits customer product quantity db).
Proof. unfold fits. destruct (lines_of customer product db); apply _. Defined.

End Spec.
Export Spec.

(** ** Assertions on the connection *)

Module Assertions.

(** [triple P m Q E]: started in a state of [P], [m] either returns [a] in a
    state of [Q a] or raises in a state of [E]. *)
Definition triple {A} (P : World → Prop) (m : M A) (Q : A → World → Prop)
    (E : World → Prop) : Prop :=
  ∀ w, P w →
    match m w with
    | (Ok a, w') => Q a w'
    | (Raise _, w') => E w'
    end.

(** A state described up to the fault schedule.  With [quiet] the schedule
    is empty: nothing raises any more. *)
Definition at_ (quiet : bool) (c db : DB) (l : Z) (ck : list Z)
    (u : list string) (w : World) : Prop :=
  committed w = c ∧ working w = db ∧ lastrowid w = l ∧ clock w = ck ∧
  uuids w = u ∧ (quiet = true → faults w = []).

(** Where an exception may leave the connection: nothing published. *)
Definition raised (quiet : bool) (c : DB) (w : World) : Prop :=
  quiet = false ∧ committed w = c.

End Assertions.
Export Assertions.

(** ** A shop to run the code on *)

Module Shop.

Definition catalogue : gmap Z ProductRow :=
  {[ 1 := mkProduct "Heattech Crew Neck Long Sleeve T-Shirt"
                    "Ultra-warm base layer" 1990 100 1;
     2 := mkProduct "Ultra Light Down Jacket"
                    "Lightweight and packable" 6990 50 1 ]}.

(** Customer 7 has two cart rows, customer 8 one row and one earlier order,
    customer 9 nothing. *)
Definition shop_db : DB :=
  mkDB catalogue
       [mkCart 1 7 1 3 100; mkCart 2 8 2 1 101; mkCart 3 7 2 2 102]
       [mkPayment 1 8 "PayPal" 1990 90]
       [mkShipment 1 90 "5 Oak St" "UNIQLO0A1B2C3D"]
       [mkOrder 1 8 90 1990 1 1 "Shipped"]
       [mkOrderItem 1 1 1 1 1990].

Definition shop (fs : list bool) : World :=
  mkWorld shop_db shop_db 0 0 fs [200; 201; 202; 203]
          ["3f2a9c41d7e04b6a8c5d1e2f3a4b5c6d"%string] [].

Definition shop_after : World :=
  (create_order 7 "PayPal" "12 Elm St" (shop [])).2.

(** The scenario of the specification: a stock of 2, a cart of 3. *)
Definition scarce_db : DB :=
  mkDB {[ 1 := mkProduct "Cashmere Crew Neck Sweater" "100% cashmere" 9990 2 2 ]}
       [mkCart 1 7 1 3 100] [] [] [] [].

Definition scarce : World :=
  mkWorld scarce_db scarce_db 0 0 [] [200; 201; 202] ["00ff00ff00ff00ff"%string] [].

(** Three times "Add to Cart" on the home page, one unit each, for a product
    of which two are left. *)
Definition three_clicks : World :=
  (add_to_cart 7 1 1
     (add_to_cart 7 1 1
        (add_to_cart 7 1 1
           (mkWorld (mkDB (Product scarce_db) [] [] [] [] [])
                    (mkDB (Product scarce_db) [] [] [] [] [])
                    0 0 [] [100; 101; 200; 201; 202]
                    ["00ff00ff00ff00ff"%string] [])).2).2).2.

(** Orders of customer 7 placed at the same instant, a later one, and an
    order of customer 8; no shipments. *)
Definition ledger : DB :=
  mkDB ∅ [] [] []
       [mkOrder 1 7 500 1000 1 1 "Processing";
        mkOrder 2 7 500 2000 2 2 "Processing";
        mkOrder 3 7 500 3000 3 3 "Shipped";
        mkOrder 4 7 900 4000 4 4 "Processing";
        mkOrder 5 8 700 5000 5 5 "Processing"]
       [].

End Shop.
Export Shop.

(** ** Invariants of the database *)

Module Invariants.

(** At most one row of [Cart] for a customer and a product. *)
Definition cart_unique (db : DB) : Prop :=
  NoDup (map (λ r, (cart_customer_id r, cart_product_id r)) (Cart db)).

(** The primary keys of the five list tables are unique. *)
Definition keys_ok (db : DB) : Prop :=
  NoDup (map cart_id (Cart db)) ∧
  NoDup (map payment_id (Payment db)) ∧
  NoDup (map shipment_id (Shipment db)) ∧
  NoDup (map order_id (Order db)) ∧
  NoDup (map order_item_id (Order_Item db)).

(** No product has a negative stock. *)
Definition stock_ok (db : DB) : Prop :=
  map_Forall (λ _ p, 0 ≤ stock p) (Product db).

(** The customer's cart asks of no product more than its stock. *)
Definition enough_stock (customer : Z) (db : DB) : Prop :=
  map_Forall (λ product p, cart_quantity_of customer product db ≤ stock p)
             (Product db).

(** An ASCII lowercase letter. *)
Definition lowercase (c : ascii) : Prop :=
  (97 ≤ nat_of_ascii c ≤ 122)%nat.

(** The characters of a string. *)
Fixpoint chars (s : string) : list ascii :=
  match s with
  | EmptyString => []
  | String c rest => c :: chars rest
  end.

(** What of a product an order must not change. *)
Definition identity_of (p : ProductRow) : string * string * Z * Z :=
  (name p, description p, price p, category_id p).

#[global] Instance cart_unique_dec db : Decision (cart_unique db).
Proof. unfold cart_unique. apply _. Defined.

#[global] Instance keys_ok_dec db : Decision (keys_ok db).
Proof. unfold keys_ok. apply _. Defined.

#[global] Instance stock_ok_dec db : Decision (stock_ok db).
Proof. unfold stock_ok. apply _. Defined.

#[global] Instance enough_stock_dec customer db :
  Decision (enough_stock customer db).
Proof. unfold enough_stock. apply _. Defined.

End Invariants.
Export Invariants.

(** ** Orders as listed and as managed by the staff *)

Module Backoffice.

(** One row of [get_customer_orders], as the dict built from it.  The
    tracking number is NULL when the LEFT JOIN finds no shipment. *)
Record OrderView := mkView {
  ov_order_id : Z;
  ov_order_date : Z;
  ov_total_amount : Z;
  ov_status : string;
  ov_tracking_number : option string
}.

(** [o LEFT JOIN Shipment s ON o.shipment_id = s.shipment_id] for one order. *)
Definition join_shipment (db : DB) (o : OrderRow) : list OrderView :=
  match filter (λ s, shipment_id s = order_shipment_id o) (Shipment db) with
  | [] => [mkView (order_id o) (order_date o) (total_amount o) (status o) None]
  | found =>
      map (λ s, mkView (order_id o) (order_date o) (total_amount o) (status o)
                       (Some (tracking_number s)))
          found
  end.

(** [ORDER BY o.order_date DESC]: between two neighbours the later date comes
    first. *)
Definition newest_first (a b : OrderView) : Prop :=
  ov_order_date b ≤ ov_order_date a.

#[global] Instance newest_first_dec a b : Decision (newest_first a b).
Proof. unfold newest_first. apply _. Defined.

(** The sorter of [ORDER BY o.order_date DESC].  A row goes behind the rows
    of a later date and ahead of the rows of the same or an earlier date that
    the join produced after it: rows of equal dates keep the order of the
    join, which is the order of the table. *)
Fixpoint insert_view (v : OrderView) (l : list OrderView) : list OrderView :=
  match l with
  | [] => [v]
  | y :: rest =>
      if decide (ov_order_date v < ov_order_date y)
      then y :: insert_view v rest
      else v :: y :: rest
  end.

Definition order_by_date_desc (l : list OrderView) : list OrderView :=
  foldr insert_view [] l.

(** The rows of the join, before they are sorted. *)
Definition joined_orders (customer : Z) (db : DB) : list OrderView :=
  flat_map (join_shipment db)
           (filter (λ o, order_customer_id o = customer) (Order db)).

(** [SELECT o.order_id, o.order_date, o.total_amount, o.status,
    s.tracking_number FROM "Order" o LEFT JOIN Shipment s
    ON o.shipment_id = s.shipment_id WHERE o.customer_id = ?
    ORDER BY o.order_date DESC] *)
Definition select_customer_orders (customer : Z) (db : DB) : list OrderView :=
  order_by_date_desc (joined_orders customer db).

(** [DatabaseManager.get_customer_orders] *)
Definition get_customer_orders (customer_id : Z) : M (list OrderView) :=
  execute_query (select_customer_orders customer_id).

Definition set_status (st : string) (o : OrderRow) : OrderRow :=
  mkOrder (order_id o) (order_customer_id o) (order_date o) (total_amount o)
          (order_payment_id o) (order_shipment_id o) st.

(** [UPDATE "Order" SET status = ? WHERE order_id = ?] *)
Definition update_order_status (new_status : string) (id : Z) : statement :=
  λ db,
  mkResult
    (mkDB (Product db) (Cart db) (Payment db) (Shipment db)
          (map (λ o, if decide (order_id o = id) then set_status new_status o
                     else o)
               (Order db))
          (Order_Item db))
    (Z.of_nat (length (filter (λ o, order_id o = id) (Order db))))
    None.

(** A listed order after the status of order [id] was set to [st]. *)
Definition restatus (st : string) (id : Z) (v : OrderView) : OrderView :=
  if decide (ov_order_id v = id)
  then mkView (ov_order_id v) (ov_order_date v) (ov_total_amount v) st
              (ov_tracking_number v)
  else v.

(** The "Update Status" button of [staff_orders_page]. *)
Definition staff_update_status (new_status : string) (order_id : Z) : M Z :=
  execute_update (update_order_status new_status order_id).

End Backoffice.
Export Backoffice.

(** ** Customer accounts

    The [Customer] table and the two methods that use it, with the sign-up
    and login forms that call them.  These touch no other table, so the
    table stands here on its own, with its committed and its working image.
    SHA-256 ([hashlib.sha256(...).hexdigest()]) is a parameter. *)

Module Accounts.

(** [Customer (customer_id, first_name, last_name, email, password, address,
    phone_number)], [email] being UNIQUE. *)
Record CustomerRow := mkCustomer {
  customer_id : Z;
  first_name : string;
  last_name : string;
  email : string;
  password : string;
  customer_address : string;
  phone_number : string
}.

Inductive error :=
| IntegrityError     (* a constraint of the schema is violated *)
| OperationalError.  (* any other [sqlite3.Error] *)

Inductive result (A : Type) :=
| Done (a : A)
| Fail (e : error).
Arguments Done {A} a.
Arguments Fail {A} e.

Record Registry := mkRegistry {
  reg_committed : list CustomerRow;
  reg_working : list CustomerRow;
  reg_faults : list bool   (* [true]: the next call into SQLite raises *)
}.

Definition R (A : Type) : Type := Registry → result A * Registry.

#[global] Instance R_ret : MRet R := λ A a r, (Done a, r).
#[global] Instance R_bind : MBind R := λ A B f m r,
  match m r with
  | (Done a, r') => f a r'
  | (Fail e, r') => (Fail e, r')
  end.

(** [INSERT INTO Customer (first_name, last_name, email, password, address,
    phone_number) VALUES (?, ?, ?, ?, ?, ?)]: refused when the email is
    taken.  A statement on this table yields the number of rows touched and
    the new table, or nothing when a constraint refuses it. *)
Definition insert_customer (first last mail hashed addr phone : string)
    (table : list CustomerRow) : option (Z * list CustomerRow) :=
  if decide (mail ∈ map email table) then None
  else Some (1, table ++ [mkCustomer (next_rowid (map customer_id table))
                                     first last mail hashed addr phone]).

(** The row after [SET first_name = ?, last_name = ?, address = ?,
    phone_number = ?], and [password = ?] when one is given. *)
Definition set_profile (first last addr phone : string) (hashed : option string)
    (c : CustomerRow) : CustomerRow :=
  mkCustomer (customer_id c) first last (email c) (default (password c) hashed)
             addr phone.

(** [UPDATE Customer SET first_name = ?, last_name = ?, address = ?,
    phone_number = ? [, password = ?] WHERE customer_id = ?] *)
Definition updated (first last addr phone : string) (hashed : option string)
    (id : Z) (table : list CustomerRow) : list CustomerRow :=
  map (λ c, if decide (customer_id c = id)
            then set_profile first last addr phone hashed c else c)
      table.

Definition update_customer (first last addr phone : string)
    (hashed : option string) (id : Z) (table : list CustomerRow)
    : option (Z * list CustomerRow) :=
  Some (Z.of_nat (length (filter (λ c, customer_id c = id) table)),
        updated first last addr phone hashed id table).

(** [SELECT * FROM Customer WHERE email = ?] *)
Definition select_by_email (mail : string) (table : list CustomerRow)
    : list CustomerRow :=
  filter (λ c, email c = mail) table.

(** [execute_query] on the [Customer] table. *)
Definition execute_query {A} (query : list CustomerRow → A) : R A := λ r,
  match reg_faults r with
  | true :: rest =>
      (Fail OperationalError, mkRegistry (reg_committed r) (reg_working r) rest)
  | _ =>
      (Done (query (reg_working r)),
       mkRegistry (reg_committed r) (reg_working r) (tail (reg_faults r)))
  end.

(** [execute_update] on the [Customer] table: [cursor.execute], then
    [commit], then the row count. *)
Definition execute_update
    (query : list CustomerRow → option (Z * list CustomerRow)) : R Z := λ r,
  match reg_faults r with
  | true :: rest =>
      (Fail OperationalError, mkRegistry (reg_committed r) (reg_working r) rest)
  | _ =>
      match query (reg_working r) with
      | None =>
          (Fail IntegrityError,
           mkRegistry (reg_committed r) (reg_working r) (tail (reg_faults r)))
      | Some (n, table) =>
          match tail (reg_faults r) with
          | true :: rest =>
              (Fail OperationalError, mkRegistry (reg_committed r) table rest)
          | _ =>
              (Done n, mkRegistry table table (tail (tail (reg_faults r))))
          end
      end
  end.

Section Hashing.
Variable sha256_hexdigest : string → string.

Definition hash_password (pw : string) : string := sha256_hexdigest pw.

Definition verify_password (pw hashed : string) : bool :=
  bool_decide (hash_password pw = hashed).

Definition get_customer_by_email (mail : string) : R (option CustomerRow) :=
  found ← execute_query (select_by_email mail);
  mret (match found with
        | first :: _ => Some first
        | [] => None
        end).

Definition create_customer (first last mail pw addr phone : string) : R bool :=
  let hashed_password := hash_password pw in
  λ r,
  match execute_update (insert_customer first last mail hashed_password addr phone) r with
  | (Done _, r') => (Done true, r')
  | (Fail IntegrityError, r') => (Done false, r')
  | (Fail e, r') => (Fail e, r')
  end.

(** What a login leaves in [st.session_state], besides the constant
    [user_type = "customer"]. *)
Record Session := mkSession {
  session_customer_id : Z;
  session_customer_name : string;
  session_customer_email : string
}.

Definition truthy (s : string) : bool :=
  match s with EmptyString => false | _ => true end.

(** The "Login" button of [customer_login_page]: a session, or the message
    of [st.error]. *)
Definition customer_login (mail pw : string) : R (string + Session) :=
  if (truthy mail && truthy pw)%bool then
    customer ← get_customer_by_email mail;
    mret (match customer with
          | Some c =>
              if verify_password pw (password c)
              then inr (mkSession (customer_id c)
                                  (first_name c +:+ " " +:+ last_name c)
                                  (email c))
              else inl "Invalid email or password"%string
          | None => inl "Invalid email or password"%string
          end)
  else mret (inl "Please fill in all fields"%string).

(** The "Create Account" button of [customer_login_page]: the message shown
    ([true]: by [st.success], [false]: by [st.error]). *)
Definition customer_signup (first last mail pw confirm addr phone : string)
    : R (bool * string) :=
  if (truthy first && truthy last && truthy mail && truthy pw && truthy confirm)%bool
  then
    if bool_decide (pw = confirm) then
      created ← create_customer first last mail pw addr phone;
      mret (if created : bool
            then (true, "Account created successfully! Please login."%string)
            else (false, "Email already exists"%string))
    else mret (false, "Passwords do not match"%string)
  else mret (false, "Please fill in all required fields"%string).

(** The "Update Profile" button of [customer_profile_page], for the
    customer of the session: the message shown ([true]: by [st.success]). *)
Definition customer_profile_update (session_customer_id : Z)
    (first last addr phone new_password confirm_password : string)
    : R (bool * string) :=
  if truthy new_password then
    if bool_decide (new_password = confirm_password) then
      n ← execute_update (update_customer first last addr phone
                            (Some (hash_password new_password))
                            session_customer_id);
      mret (if decide (n = 0)
            then (false, "Failed to update profile"%string)
            else (true, "Profile updated successfully!"%string))
    else mret (false, "Passwords do not match"%string)
  else
    n ← execute_update (update_customer first last addr phone None
                          session_customer_id);
    mret (if decide (n = 0)
          then (false, "Failed to update profile"%string)
          else (true, "Profile updated successfully!"%string)).

End Hashing.

(** [email] is UNIQUE. *)
Definition emails_unique (table : list CustomerRow) : Prop :=
  NoDup (map email table).

End Accounts.

(** ** The cart page *)

Module Pages.

(** The "Place Order" button of [customer_cart_page]: the text of
    [st.success], or [None] after an [st.error]. *)
Definition place_order_click (customer_id : Z)
    (payment_method shipping_address : string) : M (option string) :=
  if Accounts.truthy shipping_address then
    order_id ← create_order customer_id payment_method shipping_address;
    match order_id with
    | Some id =>
        if decide (id = 0)
        then st_error "Failed to place order. Please try again.";; mret None
        else mret (Some ("Order placed successfully! Order ID: " +:+ pretty id))
    | None =>
        st_error "Failed to place order. Please try again.";; mret None
    end
  else st_error "Please enter shipping address";; mret None.

(** Rowids handed out by SQLite start at 1. *)
Definition order_ids_positive (db : DB) : Prop :=
  Forall (λ o, 1 ≤ order_id o) (Order db).

#[global] Instance order_ids_positive_dec db : Decision (order_ids_positive db).
Proof. unfold order_ids_positive. apply _. Defined.

End Pages.
Export Pages.

(** ** The staff's product page *)

Module Stockroom.

Definition put_stock (new_stock : Z) (p : ProductRow) : ProductRow :=
  mkProduct (name p) (description p) (price p) new_stock (category_id p).

(** [UPDATE Product SET stock = ? WHERE product_id = ?] *)
Definition set_stock (new_stock product : Z) : statement := λ db,
  mkResult
    (mkDB (alter (put_stock new_stock) product (Product db))
          (Cart db) (Payment db) (Shipment db) (Order db) (Order_Item db))
    (if Product db !! product is Some _ then 1 else 0)
    None.

(** The "Update Stock" button of [staff_products_page]; the widget lets no
    [new_stock] below 0 through. *)
Definition staff_update_stock (new_stock selected_product : Z) : M Z :=
  execute_update (set_stock new_stock selected_product).

(** [INSERT INTO Product (name, description, price, stock, category_id)
    VALUES (?, ?, ?, ?, ?)] *)
Definition insert_product (nm descr : string) (pr st cat : Z) : statement :=
  λ db,
  let id := next_rowid (elements (dom (Product db))) in
  mkResult
    (mkDB (<[id := mkProduct nm descr pr st cat]> (Product db))
          (Cart db) (Payment db) (Shipment db) (Order db) (Order_Item db))
    1 (Some id).

(** The "Add Product" form of [staff_products_page]: [true] after
    [st.success], [false] after [st.error]. *)
Definition staff_add_product (nm descr : string) (pr st cat : Z) : M bool :=
  if (Accounts.truthy nm && Accounts.truthy descr && bool_decide (0 < pr))%bool
  then execute_update (insert_product nm descr pr st cat);; mret true
  else st_error "Please fill in all required fields";; mret false.

End Stockroom.
Export Stockroom.

(** ** A front desk to run the account code on *)

Module Desk.
Import Accounts.

(** Stands in for SHA-256 where the code is run. *)
Definition toy_digest (s : string) : string := "#" +:+ s.

Definition ann : CustomerRow :=
  mkCustomer 1 "Ann" "Lee" "ann@example.com" (toy_digest "s3cret")
             "5 Oak St" "555-0100".

Definition desk (fs : list bool) : Registry := mkRegistry [ann] [ann] fs.

Definition desk_after : Registry :=
  (create_customer toy_digest "Bob" "Ray" "bob@example.com" "hunter2" "" ""
                   (desk [])).2.

End Desk.
Export Desk.

(** ** Reasoning about the connection monad *)

Module Hoare.

Lemma triple_ret {A} (P : World → Prop) (a : A) (Q : A → World → Prop) E :
  (∀ w, P w → Q a w) → triple P (mret a) Q E.
Proof. intros H w Hw. cbn. auto. Qed.

Lemma triple_bind {A B} P (m : M A) (f : A → M B) Q R E :
  triple P m Q E → (∀ a, triple (Q a) (f a) R E) → triple P (m ≫= f) R E.
Proof.
  intros Hm Hf w Hw. specialize (Hm w Hw).
  unfold mbind, M_bind. destruct (m w) as [[a|e] w']; [|exact Hm].
  apply (Hf a w' Hm).
Qed.

Lemma triple_post {A} P (m : M A) (Q Q' : A → World → Prop) E :
  triple P m Q E → (∀ a w, Q a w → Q' a w) → triple P m Q' E.
Proof.
  intros Hm HQ w Hw. specialize (Hm w Hw).
  destruct (m w) as [[a|e] w']; auto.
Qed.

Lemma triple_pre {A} (P P' : World → Prop) (m : M A) Q E :
  triple P' m Q E → (∀ w, P w → P' w) → triple P m Q E.
Proof. intros Hm HP w Hw. apply Hm, HP, Hw. Qed.

Lemma triple_pure {A} (φ : Prop) P (m : M A) Q E :
  (φ → triple P m Q E) → triple (λ w, φ ∧ P w) m Q E.
Proof. intros H w [Hφ Hw]. apply (H Hφ w Hw). Qed.

Lemma triple_ex {A X} (P : X → World → Prop) (m : M A) Q E :
  (∀ x, triple (P x) m Q E) → triple (λ w, ∃ x, P x w) m Q E.
Proof. intros H w [x Hw]. apply (H x w Hw). Qed.

Lemma triple_exn {A} P (m : M A) Q (E E' : World → Prop) :
  triple P m Q E → (∀ w, E w → E' w) → triple P m Q E'.
Proof.
  intros Hm HE w Hw. specialize (Hm w Hw).
  destruct (m w) as [[a|e] w']; auto.
Qed.

Section Primitives.
Context (q : bool) (c db : DB) (l : Z) (ck : list Z) (u : list string).

Lemma triple_params (params : list Z) :
  triple (at_ q c db l ck u) (cursor_bind params)
         (λ _ w, Forall int64 params ∧ at_ q c db l ck u w)
         (λ w, ¬ Forall int64 params ∧ committed w = c).
Proof.
  intros w Hw. unfold cursor_bind. case_decide; [done|].
  split; [done|]. by destruct Hw as [-> _].
Qed.

Lemma triple_fallible :
  triple (at_ q c db l ck u) fallible (λ _, at_ q c db l ck u) (raised q c).
Proof.
  intros [c' db' l' r' fs ck' u' er] (Hc & Hdb & Hl & Hck & Hu & Hq).
  cbn in *. unfold fallible; cbn.
  destruct fs as [|[] fs]; cbn; unfold at_, raised; cbn.
  - tauto.
  - split; [|done]. destruct q; [discriminate Hq|]; done.
  - repeat split; try done. intros Hq'. discriminate (Hq Hq').
Qed.

Lemma triple_fetch {A} (sel : DB → A) :
  triple (at_ q c db l ck u) (fetch sel)
         (λ a w, a = sel db ∧ at_ q c db l ck u w) (raised q c).
Proof.
  intros w Hw. unfold fetch. split; [|done].
  destruct Hw as (_ & Hdb & _). by rewrite Hdb.
Qed.

Lemma triple_apply (s : statement) :
  triple (at_ q c db l ck u) (apply_result s)
         (λ _, at_ q c (image (s db)) (default l (new_rowid (s db))) ck u)
         (raised q c).
Proof.
  intros w (Hc & Hdb & Hl & Hck & Hu & Hq). unfold apply_result, at_; cbn.
  subst. tauto.
Qed.

Lemma triple_query {A} (sel : DB → A) :
  triple (at_ q c db l ck u) (cursor_query sel)
         (λ a w, a = sel db ∧ at_ q c db l ck u w) (raised q c).
Proof.
  unfold cursor_query. eapply triple_bind; [apply triple_fallible|].
  intros ?. apply triple_fetch.
Qed.

Lemma triple_execute (s : statement) :
  triple (at_ q c db l ck u) (cursor_execute s)
         (λ _, at_ q c (image (s db)) (default l (new_rowid (s db))) ck u)
         (raised q c).
Proof.
  unfold cursor_execute. eapply triple_bind; [apply triple_fallible|].
  intros ?. apply triple_apply.
Qed.

Lemma triple_lastrowid :
  triple (at_ q c db l ck u) cursor_lastrowid
         (λ a w, a = l ∧ at_ q c db l ck u w) (raised q c).
Proof.
  intros w Hw. unfold cursor_lastrowid. split; [|done].
  destruct Hw as (_ & _ & Hl & _). by rewrite Hl.
Qed.

Lemma triple_now :
  triple (at_ q c db l ck u) datetime_now
         (λ a w, a = hd 0 ck ∧ at_ q c db l (tail ck) u w) (raised q c).
Proof.
  intros w (Hc & Hdb & Hl & Hck & Hu & Hq). unfold datetime_now, at_; cbn.
  subst. tauto.
Qed.

Lemma triple_uuid :
  triple (at_ q c db l ck u) uuid4_hex
         (λ a w, a = hd ""%string u ∧ at_ q c db l ck (tail u) w) (raised q c).
Proof.
  intros w (Hc & Hdb & Hl & Hck & Hu & Hq). unfold uuid4_hex, at_; cbn.
  subst. tauto.
Qed.

Lemma triple_commit :
  triple (at_ q c db l ck u) conn_commit (λ _, at_ q db db l ck u) (raised q c).
Proof.
  unfold conn_commit. eapply triple_bind; [apply triple_fallible|].
  intros ? w (Hc & Hdb & Hl & Hck & Hu & Hq). unfold publish, at_; cbn.
  subst. tauto.
Qed.

End Primitives.

End Hoare.

(** ** The statements of [create_order], one after the other *)

Module UnitOfWork.
Import Hoare.

Lemma foldr_max_snoc (rest : list Z) (i x : Z) :
  foldr Z.max i (rest ++ [x]) = Z.max x (foldr Z.max i rest).
Proof.
  induction rest as [|y rest IH]; cbn; [done|]. rewrite IH. lia.
Qed.

Lemma next_rowid_snoc (ids : list Z) :
  next_rowid (ids ++ [next_rowid ids]) = next_rowid ids + 1.
Proof.
  destruct ids as [|i rest]; cbn; [done|]. rewrite foldr_max_snoc. lia.
Qed.

Lemma next_rowid_fresh (ids : list Z) : next_rowid ids ∉ ids.
Proof.
  assert (Hle : ∀ i rest x, x ∈ i :: rest → x ≤ foldr Z.max i rest).
  { intros i rest. induction rest as [|y rest IH]; cbn; intros x Hx.
    - apply list_elem_of_singleton in Hx. lia.
    - rewrite !elem_of_cons in Hx. destruct Hx as [->|[->|Hx]].
      + specialize (IH i ltac:(left)). lia.
      + lia.
      + specialize (IH x ltac:(by right)). lia. }
  destruct ids as [|i rest]; cbn; [apply not_elem_of_nil|].
  intros Hin. apply Hle in Hin. lia.
Qed.

Lemma item_steps (order : Z) (items : list CartItem) (db : DB) :
  foldl (item_step order) db items =
  mkDB (decrement_all items (Product db)) (Cart db) (Payment db) (Shipment db)
       (Order db)
       (Order_Item db ++
          new_order_items (next_rowid (map order_item_id (Order_Item db)))
                          order items).
Proof.
  revert db. induction items as [|it items IH]; intros db.
  - cbn. rewrite app_nil_r. by destruct db.
  - cbn [foldl]. rewrite IH. unfold item_step; cbn.
    rewrite map_app; cbn. rewrite next_rowid_snoc, <- app_assoc. done.
Qed.

Lemma for_each_items q c (order : Z) (items : list CartItem) :
  ∀ db l ck u,
    triple (at_ q c db l ck u)
      (for_each items (λ item,
         cursor_execute (insert_order_item order (ci_product_id item)
                                           (ci_quantity item) (ci_price item));;
         cursor_execute (update_stock (ci_quantity item) (ci_product_id item))))
      (λ _ w, ∃ l', at_ q c (foldl (item_step order) db items) l' ck u w)
      (raised q c).
Proof.
  induction items as [|it items IH]; intros db l ck u.
  - apply triple_ret. intros w Hw. by exists l.
  - cbn [for_each foldl].
    eapply triple_bind.
    { eapply triple_bind; [apply triple_execute|].
      intros ?. apply triple_execute. }
    intros ?. apply IH.
Qed.

Lemma triple_try {A} P (body : M A) (handler : exn → M A) Q E E' :
  triple P body Q E → (∀ e, triple E (handler e) Q E') →
  triple P (try_except body handler) Q E'.
Proof.
  intros Hb Hh w Hw. specialize (Hb w Hw). unfold try_except.
  destruct (body w) as [[a|e] w']; [done|]. apply (Hh e w' Hb).
Qed.

(** The exception handler of [create_order]. *)
Lemma handler_triple q c db ck u customer method addr (e : exn) :
  triple (raised q c)
    (conn_rollback;; st_error ("Error creating order: " +:+ exn_str e);;
     mret None)
    (order_post q c db ck u customer method addr) (λ _, False).
Proof.
  intros w [-> Hc].
  unfold mbind, M_bind, conn_rollback, st_error, mret, M_ret; cbn.
  split_and!; [done | by right | discriminate].
Qed.

Lemma create_order_triple q c db l ck u customer method addr :
  triple (at_ q c db l ck u) (create_order customer method addr)
         (order_post q c db ck u customer method addr) (λ _, False).
Proof.
  unfold create_order. eapply triple_try with (E := raised q c).
  2:{ intros e. apply handler_triple. }
  eapply triple_bind; [apply triple_query|].
  intros items. apply triple_pure. intros ->.
  destruct (select_cart_items customer db) as [|it0 items] eqn:Hitems.
  { apply triple_ret. intros w (Hc & Hdb & _). cbn. auto. }
  rewrite <- Hitems.
  eapply triple_bind; [apply triple_now|].
  intros t1. apply triple_pure. intros ->.
  eapply triple_bind; [apply triple_execute|]. intros ?.
  eapply triple_bind; [apply triple_lastrowid|].
  intros pay. apply triple_pure. intros ->.
  eapply triple_bind; [apply triple_uuid|].
  intros hex. apply triple_pure. intros ->.
  eapply triple_bind; [apply triple_now|].
  intros t2. apply triple_pure. intros ->.
  eapply triple_bind; [apply triple_execute|]. intros ?.
  eapply triple_bind; [apply triple_lastrowid|].
  intros ship. apply triple_pure. intros ->.
  eapply triple_bind; [apply triple_now|].
  intros t3. apply triple_pure. intros ->.
  eapply triple_bind; [apply triple_execute|]. intros ?.
  eapply triple_bind; [apply triple_lastrowid|].
  intros order. apply triple_pure. intros ->.
  eapply triple_bind; [apply for_each_items|]. intros ?.
  apply triple_ex. intros l'.
  eapply triple_bind; [apply triple_execute|]. intros ?.
  eapply triple_bind; [apply triple_commit|]. intros ?.
  apply triple_ret. intros w (Hc & Hdb & _). cbn [order_post].
  rewrite Hdb, Hc. split_and!; [done| by rewrite Hitems | | done].
  rewrite item_steps. cbn. unfold spec_place_order. done.
Qed.

End UnitOfWork.

(** ** Facts about the tables *)

Module Facts.
Import Hoare UnitOfWork.

Lemma fold_add (l : list Z) (a : Z) : fold_left Z.add l a = a + sum l.
Proof.
  unfold sum. revert a. induction l as [|x l IH]; intros a; cbn; [lia|].
  rewrite (IH (a + x)), (IH (0 + x)). lia.
Qed.

Lemma sum_cons (x : Z) (l : list Z) : sum (x :: l) = x + sum l.
Proof. unfold sum at 1. cbn. apply fold_add. Qed.

Lemma sum_nil : sum [] = 0.
Proof. done. Qed.

Lemma take_stock_0 (p : ProductRow) : take_stock 0 p = p.
Proof. destruct p. unfold take_stock; cbn. f_equal. lia. Qed.

Lemma take_stock_twice (a b : Z) (p : ProductRow) :
  take_stock a (take_stock b p) = take_stock (b + a) p.
Proof. unfold take_stock; cbn. f_equal. lia. Qed.

Lemma ordered_quantity_cons (product : Z) (it : CartItem) (items : list CartItem) :
  ordered_quantity product (it :: items) =
  (if decide (ci_product_id it = product) then ci_quantity it else 0)
  + ordered_quantity product items.
Proof.
  unfold ordered_quantity. rewrite filter_cons.
  case_decide; cbn [map]; [apply sum_cons | lia].
Qed.

(** After the loop each product has lost what the cart items ask of it, and
    nothing else about it has changed. *)
Lemma decrement_all_lookup (items : list CartItem) (m : gmap Z ProductRow)
    (product : Z) :
  decrement_all items m !! product =
  take_stock (ordered_quantity product items) <$> m !! product.
Proof.
  revert m. induction items as [|it items IH]; intros m.
  - cbn. destruct (m !! product) as [p|]; cbn; [|done].
    by rewrite take_stock_0.
  - unfold decrement_all in *. cbn [foldl]. rewrite IH, lookup_alter.
    rewrite ordered_quantity_cons. case_decide as Hid.
    + rewrite Hid. destruct (m !! product) as [p|]; cbn; [|done].
      by rewrite take_stock_twice.
    + by rewrite Z.add_0_l.
Qed.

Lemma joined_quantity (db : DB) (customer product : Z) (rows : list CartRow) :
  is_Some (Product db !! product) →
  ordered_quantity product
    (omap (join_product db) (filter (λ r, cart_customer_id r = customer) rows)) =
  sum (map cart_quantity
         (filter (λ r, cart_customer_id r = customer ∧ cart_product_id r = product)
                 rows)).
Proof.
  intros [p Hp]. induction rows as [|r rows IH]; [done|].
  rewrite !filter_cons. destruct (decide (cart_customer_id r = customer)) as [Hc|Hc].
  - cbn [omap list_omap]. unfold join_product at 1.
    destruct (decide (cart_product_id r = product)) as [Hr|Hr].
    + rewrite Hr, Hp. rewrite ordered_quantity_cons; cbn.
      rewrite decide_True by done. rewrite decide_True by done.
      cbn [map]. rewrite sum_cons. f_equal. apply IH.
    + rewrite (decide_False (P := _ ∧ _)) by tauto.
      destruct (Product db !! cart_product_id r) as [p'|]; [|apply IH].
      rewrite ordered_quantity_cons; cbn.
      rewrite decide_False by done. rewrite Z.add_0_l. apply IH.
  - rewrite (decide_False (P := _ ∧ _)) by tauto. apply IH.
Qed.


Lemma new_items_order (first_id order : Z) (items : list CartItem) :
  ∀ i, i ∈ new_order_items first_id order items → item_order_id i = order.
Proof.
  revert first_id. induction items as [|it items IH]; intros first_id i Hi.
  - by apply elem_of_nil in Hi.
  - cbn in Hi. apply elem_of_cons in Hi as [->|Hi]; [done|]. by eapply IH.
Qed.

Lemma filter_all {A} (P : A → Prop) `{∀ x, Decision (P x)} (l : list A) :
  (∀ x, x ∈ l → P x) → filter P l = l.
Proof.
  induction l as [|x l IH]; intros Hl; [done|].
  rewrite filter_cons_True by (apply Hl; left).
  f_equal. apply IH. intros y Hy. apply Hl. by right.
Qed.

Lemma filter_none {A} (P : A → Prop) `{∀ x, Decision (P x)} (l : list A) :
  (∀ x, x ∈ l → ¬ P x) → filter P l = [].
Proof.
  induction l as [|x l IH]; intros Hl; [done|].
  rewrite filter_cons_False by (apply Hl; left).
  apply IH. intros y Hy. apply Hl. by right.
Qed.



End Facts.

(** ** [create_order] *)

Module OrderProperties.
Import Hoare UnitOfWork Facts.

(** [create_order] never lets an exception escape, and its result and final
    state are those of [order_post]. *)
Lemma create_order_run w customer method addr :
  ∃ r w',
    create_order customer method addr w = (Ok r, w') ∧
    order_post (bool_decide (faults w = [])) (committed w) (working w) (clock w)
               (uuids w) customer method addr r w'.
Proof.
  pose proof (create_order_triple (bool_decide (faults w = [])) (committed w)
                (working w) (lastrowid w) (clock w) (uuids w)
                customer method addr w) as H.
  destruct (create_order customer method addr w) as [[r|e] w'].
  - exists r, w'. split; [done|]. apply H. unfold at_. split_and!; try done.
    intros Hq. by apply bool_decide_eq_true in Hq.
  - exfalso. apply H. unfold at_. split_and!; try done.
    intros Hq. by apply bool_decide_eq_true in Hq.
Qed.

(** A successful call, read backwards. *)
Lemma create_order_success w customer method addr order w' :
  create_order customer method addr w = (Ok (Some order), w') →
  order = next_rowid (map order_id (Order (working w))) ∧
  select_cart_items customer (working w) ≠ [] ∧
  committed w' = placed customer method addr w ∧
  working w' = committed w'.
Proof.
  intros Hrun.
  destruct (create_order_run w customer method addr) as (r & w1 & Hr & Hpost).
  rewrite Hrun in Hr. injection Hr as <- <-. exact Hpost.
Qed.

(** With a storage layer that does not fail and a cart that lists at least
    one line, the order is placed. *)
Lemma create_order_succeeds w customer method addr :
  faults w = [] → select_cart_items customer (working w) ≠ [] →
  ∃ order w', create_order customer method addr w = (Ok (Some order), w').
Proof.
  intros Hf Hitems.
  destruct (create_order_run w customer method addr) as (r & w' & Hr & Hpost).
  destruct r as [order|]; [by eauto|].
  destruct Hpost as (_ & _ & Hq). exfalso. apply Hitems, Hq.
  by apply bool_decide_eq_true.
Qed.

Lemma empty_cart_no_items (customer : Z) (db : DB) :
  cart_of customer db = [] → select_cart_items customer db = [].
Proof. unfold cart_of, select_cart_items. by intros ->. Qed.

(** C2. [create_order] is atomic.  Entered with no transaction open, and
    whatever statements the storage layer makes fail, it returns without
    raising, leaves no transaction open, and either it returns [None] (the
    failure indicator) and the database is exactly the one before the call,
    or it returns an order id and the database is the one before the call
    with the whole unit of work applied: payment, shipment, order, order
    items, stock decrements and cart clearing. *)
Theorem create_order_atomic w customer method addr :
  clean w →
  ∃ r w',
    create_order customer method addr w = (Ok r, w') ∧
    clean w' ∧
    match r with
    | None => committed w' = committed w
    | Some _ => committed w' = placed customer method addr w
    end.
Proof.
  intros Hclean.
  destruct (create_order_run w customer method addr) as (r & w' & Hr & Hpost).
  exists r, w'. split; [done|]. unfold clean in *.
  destruct r as [order|]; cbn in Hpost.
  - destruct Hpost as (_ & _ & Hc & Hw). split; [done|]. exact Hc.
  - destruct Hpost as (Hc & [Hw|Hw] & _); split; congruence.
Qed.

(** A cart that lists nothing, be it that it has no row or that none of
    its rows has a product, is not ordered. *)
Lemma create_order_nothing_listed w customer method addr :
  clean w →
  select_cart_items customer (working w) = [] →
  ∃ w',
    create_order customer method addr w = (Ok None, w') ∧
    committed w' = committed w ∧
    working w' = working w.
Proof.
  intros Hclean Hempty.
  destruct (create_order_run w customer method addr) as (r & w' & Hr & Hpost).
  destruct r as [order|]; cbn in Hpost.
  - destruct Hpost as (_ & Hne & _). done.
  - exists w'. split; [done|]. unfold clean in Hclean.
    destruct Hpost as (Hc & [Hw|Hw] & _); split; congruence.
Qed.

(** C5. On an empty cart [create_order] fails, by returning [None], and has
    no effect: the database, hence every table ([Payment], [Shipment],
    [Order], [Order_Item], the stock in [Product], [Cart]), is as before. *)
Theorem create_order_empty_cart w customer method addr :
  clean w →
  cart_of customer (working w) = [] →
  ∃ w',
    create_order customer method addr w = (Ok None, w') ∧
    committed w' = committed w ∧
    working w' = working w.
Proof.
  intros Hclean Hempty. apply create_order_nothing_listed; [done|].
  by apply empty_cart_no_items.
Qed.

(** The foreign key of [Order_Item] survives an order. *)
Lemma create_order_keeps_refs w customer method addr order w' :
  order_items_ref_ok (working w) →
  create_order customer method addr w = (Ok (Some order), w') →
  order_items_ref_ok (committed w').
Proof.
  intros Href (_ & _ & Hc & _)%create_order_success. rewrite Hc.
  unfold order_items_ref_ok, placed, spec_place_order in *.
  cbn [Order Order_Item]. rewrite map_app. apply Forall_app. split.
  - eapply Forall_impl; [exact Href|]. intros i Hi. apply elem_of_app. by left.
  - apply Forall_forall. intros i Hi%new_items_order.
    apply elem_of_app. right. rewrite Hi. cbn. by left.
Qed.

(** C7. After a successful [create_order] the customer has no row left in
    [Cart]. *)
Theorem create_order_clears_cart w customer method addr order w' :
  create_order customer method addr w = (Ok (Some order), w') →
  cart_of customer (committed w') = [] ∧ cart_of customer (working w') = [].
Proof.
  intros (_ & _ & Hc & Hw)%create_order_success. rewrite Hw, Hc.
  unfold cart_of, placed, spec_place_order; cbn.
  assert (filter (λ r, cart_customer_id r = customer)
            (filter (λ r, cart_customer_id r ≠ customer) (Cart (working w))) = [])
    as ->; [|done].
  apply filter_none. intros r [Hr _]%list_elem_of_filter. done.
Qed.

(** C9. The order a successful [create_order] creates is inserted with the
    status 'Processing', not with the schema's default 'Pending'. *)
Theorem create_order_status w customer method addr order w' :
  create_order customer method addr w = (Ok (Some order), w') →
  (∃ o, Order (committed w') = Order (working w) ++ [o] ∧ order_id o = order) ∧
  ∀ o, o ∈ Order (committed w') → order_id o = order →
       status o = "Processing"%string ∧ status o ≠ status_default.
Proof.
  intros (Hid & _ & Hc & _)%create_order_success. rewrite Hc.
  unfold placed, spec_place_order; cbn. split.
  - eexists. split; [reflexivity|]. by cbn.
  - intros o Ho Heq. apply elem_of_app in Ho as [Ho|Ho].
    + exfalso. apply (next_rowid_fresh (map order_id (Order (working w)))).
      rewrite <- Hid, <- Heq. apply list_elem_of_In, in_map.
      by apply list_elem_of_In.
    + apply list_elem_of_singleton in Ho as ->. by cbn.
Qed.



End OrderProperties.

(** ** [add_to_cart] *)

Module CartProperties.
Import Hoare UnitOfWork Facts.

Lemma triple_rowcount (P E : World → Prop) :
  triple P cursor_rowcount (λ _, P) E.
Proof. intros w Hw. exact Hw. Qed.

Lemma triple_execute_update q c db l ck u (s : statement) :
  triple (at_ q c db l ck u) (execute_update s)
         (λ _ w, committed w = image (s db) ∧ working w = image (s db))
         (raised q c).
Proof.
  unfold execute_update.
  eapply triple_bind; [apply triple_execute|]. intros ?.
  eapply triple_bind; [apply triple_commit|]. intros ?.
  eapply triple_post; [apply triple_rowcount|].
  intros _ w (Hc & Hw & _). done.
Qed.

(** The rows the SELECT of [add_to_cart] returns are the keys and the
    quantities of the rows of the pair. *)
Lemma select_cart_line_lines (customer product : Z) (db : DB) :
  select_cart_line customer product db =
  map (λ r, (cart_id r, cart_quantity r)) (lines_of customer product db).
Proof. reflexivity. Qed.

Lemma add_to_cart_triple q c db l ck u customer product quantity :
  triple (at_ q c db l ck u) (add_to_cart customer product quantity)
         (λ b w, b = true ∧
                 committed w = cart_target customer product quantity (hd 0 ck) db ∧
                 working w = committed w ∧
                 fits customer product quantity db)
         (λ w, committed w = c ∧
               (q = true → ¬ fits customer product quantity db)).
Proof.
  unfold add_to_cart, execute_query, cart_target, fits.
  rewrite select_cart_line_lines.
  eapply triple_bind.
  { eapply triple_exn; [apply triple_params|].
    intros w [Hno Hc]. split; [done|]. intros _ (Hcu & Hpr & _).
    apply Hno. by repeat (apply Forall_cons; split; [assumption|]). }
  intros ?. apply triple_pure. intros Hfit.
  apply Forall_cons in Hfit as [Hcu Hfit]. apply Forall_cons in Hfit as [Hpr _].
  eapply triple_bind.
  { eapply triple_exn; [apply triple_query|]. intros w [-> Hc]. by split. }
  intros existing. apply triple_pure. intros ->.
  rewrite select_cart_line_lines.
  destruct (lines_of customer product db) as [|first rest]; cbn [map fst snd].
  - eapply triple_bind.
    { eapply triple_exn; [apply triple_now|]. intros w [-> Hc]. by split. }
    intros now. apply triple_pure. intros ->.
    eapply triple_bind.
    { eapply triple_exn; [apply triple_params|].
      intros w [Hno Hc]. split; [done|]. intros _ (_ & _ & Hqu).
      apply Hno. by repeat (apply Forall_cons; split; [assumption|]). }
    intros ?. apply triple_pure. intros Hfit.
    apply Forall_cons in Hfit as [_ Hfit]. apply Forall_cons in Hfit as [_ Hfit].
    apply Forall_cons in Hfit as [Hqu _].
    eapply triple_bind.
    { eapply triple_exn; [apply triple_execute_update|].
      intros w [-> Hc]. by split. }
    intros ?. apply triple_ret. intros w [Hc Hw]. split_and!; congruence.
  - eapply triple_bind.
    { eapply triple_exn; [apply triple_params|].
      intros w [Hno Hc]. split; [done|]. intros _ (_ & _ & Hqu & Hid).
      apply Hno. by repeat (apply Forall_cons; split; [assumption|]). }
    intros ?. apply triple_pure. intros Hfit.
    apply Forall_cons in Hfit as [Hqu Hfit]. apply Forall_cons in Hfit as [Hid _].
    eapply triple_bind.
    { eapply triple_exn; [apply triple_execute_update|].
      intros w [-> Hc]. by split. }
    intros ?. apply triple_ret. intros w [Hc Hw]. split_and!; congruence.
Qed.

(** [add_to_cart] cannot return anything but [True], and when it returns
    the statement it ran is committed. *)
Lemma add_to_cart_result w customer product quantity b w' :
  add_to_cart customer product quantity w = (Ok b, w') →
  b = true ∧
  committed w' = cart_target customer product quantity (hd 0 (clock w)) (working w) ∧
  working w' = committed w'.
Proof.
  intros Hrun.
  pose proof (add_to_cart_triple false (committed w) (working w) (lastrowid w)
                (clock w) (uuids w) customer product quantity w) as H.
  rewrite Hrun in H. destruct H as (? & ? & ? & _); [|done].
  unfold at_. split_and!; done.
Qed.

(** It returns only when every integer it bound was an [int64]. *)
Lemma add_to_cart_bound w customer product quantity b w' :
  add_to_cart customer product quantity w = (Ok b, w') →
  fits customer product quantity (working w).
Proof.
  intros Hrun.
  pose proof (add_to_cart_triple false (committed w) (working w) (lastrowid w)
                (clock w) (uuids w) customer product quantity w) as H.
  rewrite Hrun in H. destruct H as (_ & _ & _ & ?); [|done].
  unfold at_. split_and!; done.
Qed.

(** Without storage faults, and with integers that fit, it does return. *)
Lemma add_to_cart_returns w customer product quantity :
  faults w = [] →
  fits customer product quantity (working w) →
  ∃ w', add_to_cart customer product quantity w = (Ok true, w').
Proof.
  intros Hf Hfit.
  pose proof (add_to_cart_triple true (committed w) (working w) (lastrowid w)
                (clock w) (uuids w) customer product quantity w) as H.
  destruct (add_to_cart customer product quantity w) as [[b|e] w'].
  - destruct H as (-> & _); [by unfold at_|]. by exists w'.
  - destruct H as [_ H]; [by unfold at_|]. by destruct H.
Qed.

(** Whatever raises leaves the committed image as it was. *)
Lemma add_to_cart_raises w customer product quantity e w' :
  add_to_cart customer product quantity w = (Raise e, w') →
  committed w' = committed w.
Proof.
  intros Hrun.
  pose proof (add_to_cart_triple false (committed w) (working w) (lastrowid w)
                (clock w) (uuids w) customer product quantity w) as H.
  rewrite Hrun in H. destruct H as [? _]; [|done].
  unfold at_. split_and!; done.
Qed.

(** *** The two statements on the rows of [Cart] *)

Lemma bump_id q id r : cart_id (bump q id r) = cart_id r.
Proof. unfold bump. by case_decide. Qed.

Lemma bump_pair q id r :
  cart_customer_id (bump q id r) = cart_customer_id r ∧
  cart_product_id (bump q id r) = cart_product_id r.
Proof. unfold bump. by case_decide. Qed.

Lemma bump_absent q id (rows : list CartRow) :
  id ∉ map cart_id rows → map (bump q id) rows = rows.
Proof.
  induction rows as [|r rows IH]; intros Hid; [done|]. cbn in *.
  apply not_elem_of_cons in Hid as [Hr Hid]. rewrite IH by done.
  unfold bump. by rewrite decide_False.
Qed.

Lemma bump_ids q id (rows : list CartRow) :
  map cart_id (map (bump q id) rows) = map cart_id rows.
Proof.
  induction rows as [|r rows IH]; [done|]. cbn. by rewrite bump_id, IH.
Qed.

(** Updating by the key of the first matching row changes that row only. *)
Lemma bump_lines (customer product q : Z) (rows : list CartRow) first rest :
  NoDup (map cart_id rows) →
  filter (λ r, cart_customer_id r = customer ∧ cart_product_id r = product) rows
    = first :: rest →
  filter (λ r, cart_customer_id r = customer ∧ cart_product_id r = product)
         (map (bump q (cart_id first)) rows)
    = set_quantity q first :: rest.
Proof.
  induction rows as [|r rows IH]; intros Hnd Hf; [done|].
  cbn [map] in *. apply NoDup_cons in Hnd as [Hr Hnd].
  rewrite filter_cons in Hf |- *.
  destruct (bump_pair q (cart_id first) r) as [-> ->].
  case_decide as Hp.
  - injection Hf as -> <-. rewrite bump_absent by done.
    unfold bump at 1. by rewrite decide_True.
  - by apply IH.
Qed.

Lemma add_to_cart_step w customer product quantity b w' :
  cart_keys_ok (working w) →
  add_to_cart customer product quantity w = (Ok b, w') →
  cart_keys_ok (working w') ∧
  match lines_of customer product (working w) with
  | first :: rest =>
      lines_of customer product (working w') =
        set_quantity (cart_quantity first + quantity) first :: rest ∧
      length (Cart (working w')) = length (Cart (working w))
  | [] =>
      ∃ id t,
        Cart (working w') =
          Cart (working w) ++ [mkCart id customer product quantity t] ∧
        lines_of customer product (working w') =
          [mkCart id customer product quantity t]
  end.
Proof.
  intros Hk (_ & Hc & Hw)%add_to_cart_result. rewrite Hw, Hc. clear Hc Hw.
  unfold cart_target, select_cart_line, lines_of, cart_keys_ok in *.
  destruct (filter _ (Cart (working w))) as [|first rest] eqn:Hlines;
    cbn [map image insert_cart update_cart_quantity Cart fst snd].
  - split.
    + rewrite map_app; cbn. apply NoDup_app. split_and!; [done| |apply NoDup_singleton].
      intros id Hid ->%list_elem_of_singleton. by apply next_rowid_fresh in Hid.
    + do 2 eexists. split; [reflexivity|].
      rewrite filter_app, Hlines. cbn. by rewrite decide_True.
  - split; [by rewrite bump_ids|]. split; [by apply bump_lines|].
    apply length_map.
Qed.

(** C8. [add_to_cart] merges by increment.  When it returns, then: if the
    cart already has a row for the customer and the product, the quantity of
    that row has grown by the quantity given and no row was added; if not,
    one row with that quantity was appended.  In particular two calls for a
    product the cart did not hold, with quantities [q1] and [q2], leave
    exactly one row for it, of quantity [q1 + q2]. *)
Theorem add_to_cart_merges w customer product quantity b w' :
  cart_keys_ok (working w) →
  add_to_cart customer product quantity w = (Ok b, w') →
  match lines_of customer product (working w) with
  | first :: rest =>
      lines_of customer product (working w') =
        set_quantity (cart_quantity first + quantity) first :: rest ∧
      length (Cart (working w')) = length (Cart (working w))
  | [] =>
      ∃ id t,
        Cart (working w') =
          Cart (working w) ++ [mkCart id customer product quantity t] ∧
        lines_of customer product (working w') =
          [mkCart id customer product quantity t]
  end ∧
  (lines_of customer product (working w) = [] →
   ∀ quantity2 b2 w2,
     add_to_cart customer product quantity2 w' = (Ok b2, w2) →
     ∃ row,
       lines_of customer product (working w2) = [row] ∧
       cart_quantity row = quantity + quantity2 ∧
       length (Cart (working w2)) = S (length (Cart (working w)))).
Proof.
  intros Hk Hrun.
  destruct (add_to_cart_step _ _ _ _ _ _ Hk Hrun) as [Hk' Hstep].
  split; [exact Hstep|].
  intros Hnone quantity2 b2 w2 Hrun2. rewrite Hnone in Hstep.
  destruct Hstep as (id & t & Hcart & Hline).
  destruct (add_to_cart_step _ _ _ _ _ _ Hk' Hrun2) as [_ Hstep2].
  rewrite Hline in Hstep2. destruct Hstep2 as [Hline2 Hlen].
  eexists. split; [exact Hline2|]. split; [done|].
  rewrite Hlen, Hcart, length_app. cbn. lia.
Qed.

(** The row that the UPDATE of [add_to_cart] leaves in place of the first
    row of the pair. *)
Lemma bump_first (rows : list CartRow) (P : CartRow → Prop)
    `{∀ r, Decision (P r)} (q : Z) first rest :
  filter P rows = first :: rest →
  set_quantity q first ∈ map (bump q (cart_id first)) rows ∧ P first.
Proof.
  intros Hf.
  assert (first ∈ filter P rows) as [Hin HP]%list_elem_of_filter
    by (rewrite Hf; left).
  split; [|done]. apply list_elem_of_fmap. exists first. split; [|done].
  unfold bump. by rewrite decide_True.
Qed.

(** With an empty fault schedule the one exception left is the
    [OverflowError] of a parameter that does not fit. *)
Lemma add_to_cart_overflows w customer product quantity :
  faults w = [] →
  ¬ fits customer product quantity (working w) →
  ∃ w', add_to_cart customer product quantity w = (Raise OverflowError, w') ∧
        committed w' = committed w ∧ working w' = working w.
Proof.
  destruct w as [c db l r fs ck u er]. cbn. intros -> Hno.
  unfold fits in Hno. unfold add_to_cart, execute_query, cursor_query.
  unfold mbind, M_bind, cursor_bind at 1.
  case_decide as Hb1; [|by eexists].
  apply Forall_cons in Hb1 as [Hcu Hb1]. apply Forall_cons in Hb1 as [Hpr _].
  cbn. rewrite select_cart_line_lines.
  destruct (lines_of customer product db) as [|first rest]; cbn.
  - unfold cursor_bind. case_decide as Hb2; [|by eexists].
    apply Forall_cons in Hb2 as [_ Hb2]. apply Forall_cons in Hb2 as [_ Hb2].
    apply Forall_cons in Hb2 as [Hqu _]. by destruct Hno.
  - unfold cursor_bind. case_decide as Hb2; [|by eexists].
    apply Forall_cons in Hb2 as [Hqu Hb2]. apply Forall_cons in Hb2 as [Hid _].
    by destruct Hno.
Qed.

(** C10. [add_to_cart] validates neither the quantity nor the product.
    Whatever their sign and whether or not the product is in [Product], when
    the storage layer does not fail and every integer handed to SQLite fits
    in 64 bits ([fits]) it returns [True] and what it did to the cart is
    committed: with a row for the pair, the cart has as many rows as before
    and one of them, with the key of that row, carries the old quantity plus
    the quantity given; with none, a row with exactly that customer, product
    and quantity is appended.  When an integer does not fit, the call raises
    [OverflowError] and the database is as it was. *)
Theorem add_to_cart_no_validation w customer product quantity :
  faults w = [] →
  (fits customer product quantity (working w) →
   ∃ w',
     add_to_cart customer product quantity w = (Ok true, w') ∧
     committed w' = working w' ∧
     match lines_of customer product (working w) with
     | first :: _ =>
         length (Cart (committed w')) = length (Cart (working w)) ∧
         ∃ row,
           row ∈ Cart (committed w') ∧
           cart_id row = cart_id first ∧
           cart_customer_id row = customer ∧
           cart_product_id row = product ∧
           cart_quantity row = cart_quantity first + quantity
     | [] =>
         ∃ id t,
           Cart (committed w') =
             Cart (working w) ++ [mkCart id customer product quantity t]
     end) ∧
  (¬ fits customer product quantity (working w) →
   ∃ w',
     add_to_cart customer product quantity w = (Raise OverflowError, w') ∧
     committed w' = committed w ∧ working w' = working w).
Proof.
  intros Hf. split; [|by apply add_to_cart_overflows].
  intros Hfit.
  destruct (add_to_cart_returns w customer product quantity Hf Hfit)
    as [w' Hrun].
  exists w'. split; [done|].
  destruct (add_to_cart_result _ _ _ _ _ _ Hrun) as (_ & Hc & Hw).
  split; [done|]. rewrite Hc.
  unfold cart_target. rewrite select_cart_line_lines. unfold lines_of.
  destruct (filter _ (Cart (working w))) as [|first rest] eqn:Hlines;
    cbn [map image insert_cart update_cart_quantity Cart fst snd].
  - eauto.
  - split; [apply length_map|].
    destruct (bump_first _ _ (cart_quantity first + quantity) _ _ Hlines)
      as [Hin [Hcu Hpr]].
    eexists. split; [exact Hin|]. by cbn.
Qed.

End CartProperties.

(** ** The shop at work *)

Module Examples.
Import Hoare UnitOfWork Facts OrderProperties CartProperties.

Example shop_order :
  create_order 7 "PayPal" "12 Elm St" (shop []) = (Ok (Some 2), shop_after).
Proof. vm_compute. reflexivity. Qed.

Example shop_well_formed :
  cart_keys_ok shop_db ∧ order_items_ref_ok shop_db ∧ cart_ref_ok 7 shop_db.
Proof. apply (bool_decide_unpack _). vm_compute. exact I. Qed.

(** Customer 7 ordered 3 of product 1 and 2 of product 2. *)
Example shop_stock :
  map (λ product, stock <$> Product (working (shop [])) !! product) [1; 2]
    = [Some 100; Some 50] ∧
  map (λ product, stock <$> Product (committed shop_after) !! product) [1; 2]
    = [Some 97; Some 48].
Proof. vm_compute. done. Qed.

Example shop_tracking :
  map tracking_number (Shipment (committed shop_after))
  = ["UNIQLO0A1B2C3D"; "UNIQLO3F2A9C41"]%string.
Proof. vm_compute. reflexivity. Qed.

(** A fault at the fourth call into SQLite (the INSERT of the order, after
    the payment and the shipment were written) undoes everything. *)
Example shop_rollback :
  create_order 7 "PayPal" "12 Elm St" (shop [false; false; false; true])
  = (Ok None,
     mkWorld shop_db shop_db 2 1 [] [203] []
             ["Error creating order: sqlite3.Error"%string]).
Proof. vm_compute. reflexivity. Qed.

(** A cart row whose product is not in the catalogue is not listed, hence
    not ordered, and is deleted with the rest of the cart. *)
Example orphan_row_skipped :
  let w := (add_to_cart 9 404 1 (add_to_cart 9 1 2 (shop [])).2).2 in
  let r := create_order 9 "PayPal" "3 Ash Rd" w in
  map cart_product_id (cart_of 9 (working w)) = [1; 404] ∧
  r.1 = Ok (Some 2) ∧
  map item_product_id (items_of_order 2 (committed r.2)) = [1] ∧
  cart_of 9 (committed r.2) = [].
Proof. vm_compute. done. Qed.

Lemma create_order_atomic_witness :
  clean (shop [false; false; false; true]) ∧
  ∃ r w',
    create_order 7 "PayPal" "12 Elm St" (shop [false; false; false; true])
      = (Ok r, w') ∧
    clean w' ∧
    match r with
    | None => committed w' = committed (shop [false; false; false; true])
    | Some _ =>
        committed w' =
          placed 7 "PayPal" "12 Elm St" (shop [false; false; false; true])
    end.
Proof.
  split; [reflexivity|].
  apply (create_order_atomic (shop [false; false; false; true])). reflexivity.
Defined.

Lemma create_order_empty_cart_witness :
  clean (shop []) ∧ cart_of 9 (working (shop [])) = [] ∧
  ∃ w',
    create_order 9 "PayPal" "3 Ash Rd" (shop []) = (Ok None, w') ∧
    committed w' = committed (shop []) ∧
    working w' = working (shop []).
Proof.
  split; [reflexivity|]. split; [reflexivity|].
  apply (create_order_empty_cart (shop [])); reflexivity.
Defined.

Lemma create_order_clears_cart_witness :
  create_order 7 "PayPal" "12 Elm St" (shop []) = (Ok (Some 2), shop_after) ∧
  cart_of 7 (committed shop_after) = [] ∧ cart_of 7 (working shop_after) = [].
Proof.
  split; [vm_compute; reflexivity|].
  apply (create_order_clears_cart (shop []) 7 "PayPal" "12 Elm St" 2).
  vm_compute. reflexivity.
Defined.

Lemma create_order_status_witness :
  create_order 7 "PayPal" "12 Elm St" (shop []) = (Ok (Some 2), shop_after) ∧
  (∃ o, Order (committed shop_after) = Order (working (shop [])) ++ [o] ∧
        order_id o = 2) ∧
  ∀ o, o ∈ Order (committed shop_after) → order_id o = 2 →
       status o = "Processing"%string ∧ status o ≠ status_default.
Proof.
  split; [vm_compute; reflexivity|].
  apply (create_order_status (shop []) 7 "PayPal" "12 Elm St" 2).
  vm_compute. reflexivity.
Defined.


(** The scenario of the specification: 2, then 3, of the same product. *)
Lemma add_to_cart_merges_witness :
  cart_keys_ok (working (shop [])) ∧
  add_to_cart 9 1 2 (shop []) = (Ok true, (add_to_cart 9 1 2 (shop [])).2) ∧
  match lines_of 9 1 (working (shop [])) with
  | first :: rest =>
      lines_of 9 1 (working (add_to_cart 9 1 2 (shop [])).2) =
        set_quantity (cart_quantity first + 2) first :: rest ∧
      length (Cart (working (add_to_cart 9 1 2 (shop [])).2)) =
        length (Cart (working (shop [])))
  | [] =>
      ∃ id t,
        Cart (working (add_to_cart 9 1 2 (shop [])).2) =
          Cart (working (shop [])) ++ [mkCart id 9 1 2 t] ∧
        lines_of 9 1 (working (add_to_cart 9 1 2 (shop [])).2) =
          [mkCart id 9 1 2 t]
  end ∧
  (lines_of 9 1 (working (shop [])) = [] →
   ∀ quantity2 b2 w2,
     add_to_cart 9 1 quantity2 (add_to_cart 9 1 2 (shop [])).2 = (Ok b2, w2) →
     ∃ row,
       lines_of 9 1 (working w2) = [row] ∧
       cart_quantity row = 2 + quantity2 ∧
       length (Cart (working w2)) = S (length (Cart (working (shop []))))).
Proof.
  split; [apply (bool_decide_unpack _); vm_compute; exact I|].
  split; [vm_compute; reflexivity|].
  apply (add_to_cart_merges (shop []) 9 1 2 true).
  - apply (bool_decide_unpack _). vm_compute. exact I.
  - vm_compute. reflexivity.
Defined.

Example two_then_three :
  map (λ r, (cart_customer_id r, cart_product_id r, cart_quantity r))
      (cart_of 9 (committed (add_to_cart 9 1 3 (add_to_cart 9 1 2 (shop [])).2).2))
  = [(9, 1, 5)].
Proof. vm_compute. reflexivity. Qed.

(** Five units taken back from a row of three: the row is left at -2. *)
Example minus_five :
  map (λ r, (cart_id r, cart_product_id r, cart_quantity r))
      (cart_of 7 (working (shop [])))
    = [(1, 1, 3); (3, 2, 2)] ∧
  (add_to_cart 7 1 (-5) (shop [])).1 = Ok true ∧
  map (λ r, (cart_id r, cart_product_id r, cart_quantity r))
      (cart_of 7 (committed (add_to_cart 7 1 (-5) (shop [])).2))
    = [(1, 1, -2); (3, 2, 2)].
Proof. vm_compute. done. Qed.

(** A quantity below zero for a product that does not exist. *)
Lemma add_to_cart_no_validation_witness :
  faults (shop []) = [] ∧
  fits 9 404 (-2) (working (shop [])) ∧
  ∃ w',
    add_to_cart 9 404 (-2) (shop []) = (Ok true, w') ∧
    committed w' = working w' ∧
    match lines_of 9 404 (working (shop [])) with
    | first :: _ =>
        length (Cart (committed w')) = length (Cart (working (shop []))) ∧
        ∃ row,
          row ∈ Cart (committed w') ∧
          cart_id row = cart_id first ∧
          cart_customer_id row = 9 ∧
          cart_product_id row = 404 ∧
          cart_quantity row = cart_quantity first + -2
    | [] =>
        ∃ id t,
          Cart (committed w') =
            Cart (working (shop [])) ++ [mkCart id 9 404 (-2) t]
    end.
Proof.
  split; [reflexivity|].
  split; [apply (bool_decide_unpack _); vm_compute; exact I|].
  apply (proj1 (add_to_cart_no_validation (shop []) 9 404 (-2) eq_refl)).
  apply (bool_decide_unpack _). vm_compute. exact I.
Defined.

(** C10 does not hold for every input.  At a quantity of 2^63, with no
    storage fault at all, [add_to_cart] raises [OverflowError] instead of
    returning [True], and nothing is written. *)
Lemma add_to_cart_overflow :
  faults (shop []) = [] ∧
  (add_to_cart 9 1 9223372036854775808 (shop [])).1 = Raise OverflowError ∧
  (∀ w', add_to_cart 9 1 9223372036854775808 (shop []) ≠ (Ok true, w')) ∧
  committed (add_to_cart 9 1 9223372036854775808 (shop [])).2
    = committed (shop []).
Proof.
  split_and!; [reflexivity|vm_compute; reflexivity| |vm_compute; reflexivity].
  intros w' Hrun.
  assert ((add_to_cart 9 1 9223372036854775808 (shop [])).1 = Ok true)
    as Hok by (by rewrite Hrun).
  vm_compute in Hok. discriminate Hok.
Qed.

(** *** Ordering more than there is *)

(** C3, on the code: with a stock of 2 and 3 units in the cart,
    [create_order] does not fail; it creates the order and leaves a stock
    of -1. *)
Theorem create_order_ignores_stock :
  stock <$> Product (working scarce) !! 1 = Some 2 ∧
  map cart_quantity (cart_of 7 (working scarce)) = [3] ∧
  (create_order 7 "Credit Card" "12 Elm St" scarce).1 = Ok (Some 1) ∧
  stock <$> Product (committed (create_order 7 "Credit Card" "12 Elm St" scarce).2) !! 1
    = Some (-1) ∧
  map order_id (Order (committed (create_order 7 "Credit Card" "12 Elm St" scarce).2))
    = [1].
Proof. vm_compute. done. Qed.

(** C4, on the code: from a stock of 2 and an empty cart, three additions of
    one unit and an order leave a negative stock. *)
Theorem create_order_stock_negative :
  clean three_clicks ∧
  stock <$> Product (committed three_clicks) !! 1 = Some 2 ∧
  map cart_quantity (cart_of 7 (committed three_clicks)) = [3] ∧
  (create_order 7 "Credit Card" "12 Elm St" three_clicks).1 = Ok (Some 1) ∧
  stock <$> Product (committed (create_order 7 "Credit Card" "12 Elm St" three_clicks).2) !! 1
    = Some (-1).
Proof. vm_compute. done. Qed.

End Examples.

(** ** More on the cart: [remove_from_cart], [get_cart_items], isolation *)

Module CartExtras.
Import Hoare UnitOfWork Facts CartProperties.

(** [execute_update] returns only after the commit, with the row count of
    the statement. *)
Lemma execute_update_ok (s : statement) w n w' :
  execute_update s w = (Ok n, w') →
  n = touched (s (working w)) ∧
  committed w' = image (s (working w)) ∧
  working w' = image (s (working w)).
Proof.
  unfold execute_update, cursor_execute, conn_commit, cursor_rowcount, fallible,
    apply_result, publish, mbind, M_bind.
  destruct w as [c d l r fs ck u e]; cbn.
  destruct fs as [|[] [|[] fs]]; cbn; intros H; by simplify_eq.
Qed.

Lemma execute_update_returns (s : statement) w :
  faults w = [] →
  ∃ w', execute_update s w = (Ok (touched (s (working w))), w').
Proof.
  unfold execute_update, cursor_execute, conn_commit, cursor_rowcount, fallible,
    apply_result, publish, mbind, M_bind.
  destruct w as [c d l r fs ck u e]; cbn. intros ->. cbn. eauto.
Qed.

Lemma db_eta (db : DB) :
  mkDB (Product db) (Cart db) (Payment db) (Shipment db) (Order db)
       (Order_Item db) = db.
Proof. by destruct db. Qed.

Lemma count_pos {A} (P : A → Prop) `{∀ x, Decision (P x)} (l : list A) :
  0 < Z.of_nat (length (filter P l)) ↔ ∃ x, x ∈ l ∧ P x.
Proof.
  split.
  - destruct (filter P l) as [|x l'] eqn:Hf; cbn; [lia|]. intros _.
    assert (Hx : x ∈ filter P l) by (rewrite Hf; left).
    apply list_elem_of_filter in Hx as [? ?]. eauto.
  - intros (x & Hx & HP).
    assert (Hin : x ∈ filter P l) by (by apply list_elem_of_filter).
    destruct (filter P l); [by apply elem_of_nil in Hin|cbn; lia].
Qed.

Lemma filter_length_split {A} (P : A → Prop) `{∀ x, Decision (P x)} (l : list A) :
  (length (filter P l) + length (filter (λ x, ¬ P x) l) = length l)%nat.
Proof.
  induction l as [|x l IH]; [done|]. rewrite !filter_cons.
  destruct (decide (P x)), (decide (¬ P x)); cbn; try done; lia.
Qed.

Lemma elem_of_map {A B} (f : A → B) (l : list A) (x : A) :
  x ∈ l → f x ∈ map f l.
Proof. intros Hx. apply list_elem_of_In, in_map. by apply list_elem_of_In. Qed.

Lemma key_count {A K} `{EqDecision K} (f : A → K) (k : K) (rows : list A) :
  NoDup (map f rows) →
  (length (filter (λ r, f r = k) rows) ≤ 1)%nat.
Proof.
  induction rows as [|r rows IH]; cbn [map]; intros Hnd; [cbn; lia|].
  apply NoDup_cons in Hnd as [Hr Hnd]. rewrite filter_cons.
  case_decide as Hid; [|by apply IH]. cbn.
  rewrite filter_none; [cbn; lia|].
  intros x Hx Hxid. apply Hr. rewrite Hid, <- Hxid. by apply elem_of_map.
Qed.

(** X1. [remove_from_cart], when it returns: the answer is [True] exactly
    when [Cart] had a row with that [cart_id]; the rows with that id are gone
    and all others are kept, in order; the other tables are untouched; the
    change is committed.  An answer [False] means that nothing changed, and
    with unique keys an answer [True] means exactly one row fewer. *)
Theorem remove_from_cart_effect w id b w' :
  remove_from_cart id w = (Ok b, w') →
  (b = true ↔ id ∈ map cart_id (Cart (working w))) ∧
  Cart (working w') = filter (λ r, cart_id r ≠ id) (Cart (working w)) ∧
  (Product (working w'), Payment (working w'), Shipment (working w'),
   Order (working w'), Order_Item (working w'))
  = (Product (working w), Payment (working w), Shipment (working w),
     Order (working w), Order_Item (working w)) ∧
  committed w' = working w' ∧
  (b = false → working w' = working w) ∧
  (b = true → cart_keys_ok (working w) →
   S (length (Cart (working w'))) = length (Cart (working w))).
Proof.
  unfold remove_from_cart, mbind, M_bind.
  destruct (execute_update (delete_cart_line id) w) as [[n|e] w1] eqn:Hrun;
    [|done].
  apply execute_update_ok in Hrun as (Hn & Hc & Hw).
  unfold mret, M_ret. intros [= <- <-]. rewrite Hw, Hc. cbn in *.
  assert (Hb : bool_decide (0 < n) = true ↔ id ∈ map cart_id (Cart (working w))).
  { rewrite bool_decide_eq_true, Hn, count_pos. split.
    - intros (r & Hr & <-). apply list_elem_of_In, in_map.
      by apply list_elem_of_In.
    - intros Hin. apply list_elem_of_In, in_map_iff in Hin as (r & Hr & Hin).
      exists r. split; [by apply list_elem_of_In|done]. }
  split_and!; try done.
  - intros Hf. rewrite filter_all; [apply db_eta|].
    intros r Hr Hid. apply not_true_iff_false in Hf. apply Hf, Hb.
    rewrite <- Hid. apply list_elem_of_In, in_map. by apply list_elem_of_In.
  - intros Ht Hk. apply bool_decide_eq_true in Ht. rewrite Hn in Ht.
    pose proof (key_count cart_id id _ Hk) as Hle.
    pose proof (filter_length_split (λ r, cart_id r = id) (Cart (working w))) as Hs.
    lia.
Qed.

(** X2. Removing the row that [add_to_cart] has just inserted for a product
    the cart did not hold gives back the database as it was. *)
Theorem add_then_remove w customer product quantity b w1 row b' w2 :
  lines_of customer product (working w) = [] →
  add_to_cart customer product quantity w = (Ok b, w1) →
  lines_of customer product (working w1) = [row] →
  remove_from_cart (cart_id row) w1 = (Ok b', w2) →
  b' = true ∧ working w2 = working w ∧ committed w2 = working w.
Proof.
  intros Hnone (_ & Hc & Hw)%add_to_cart_result Hrow Hrm.
  unfold cart_target, select_cart_line in Hc. unfold lines_of in Hnone.
  rewrite Hnone in Hc. cbn in Hc. rewrite Hc in Hw.
  assert (Hid : cart_id row = next_rowid (map cart_id (Cart (working w)))).
  { unfold lines_of in Hrow. rewrite Hw in Hrow. cbn in Hrow.
    rewrite filter_app, Hnone in Hrow. cbn in Hrow.
    rewrite decide_True in Hrow by done. by injection Hrow as <-. }
  unfold remove_from_cart, mbind, M_bind in Hrm.
  destruct (execute_update _ w1) as [[n|e] w1'] eqn:Hrun; [|done].
  apply execute_update_ok in Hrun as (Hn & Hc' & Hw').
  unfold mret, M_ret in Hrm. injection Hrm as <- <-.
  rewrite Hc', Hw', Hn, Hw, Hid. cbn.
  assert (Hkeep : filter (λ r, cart_id r ≠ next_rowid (map cart_id (Cart (working w))))
                    (Cart (working w)) = Cart (working w)).
  { apply filter_all. intros r Hr Heq.
    apply (next_rowid_fresh (map cart_id (Cart (working w)))).
    rewrite <- Heq. apply list_elem_of_In, in_map. by apply list_elem_of_In. }
  assert (Hgone : filter (λ r, cart_id r = next_rowid (map cart_id (Cart (working w))))
                    (Cart (working w)) = []).
  { apply filter_none. intros r Hr Heq.
    apply (next_rowid_fresh (map cart_id (Cart (working w)))).
    rewrite <- Heq. apply list_elem_of_In, in_map. by apply list_elem_of_In. }
  rewrite !filter_app, Hkeep, Hgone. cbn.
  repeat case_decide; try done. cbn.
  rewrite app_nil_r, db_eta. done.
Qed.

Lemma bump_same (P : CartRow → Prop) (q id : Z) (r : CartRow) :
  (∀ r q', P (set_quantity q' r) ↔ P r) → P (bump q id r) ↔ P r.
Proof. intros HP. unfold bump. case_decide; [apply HP|done]. Qed.

(** Updating by the key of [first] leaves the rows outside [P] as they were,
    when [first] is not in [P] and keys are unique. *)
Lemma bump_filter_other (P : CartRow → Prop) `{∀ r, Decision (P r)}
    (q : Z) (first : CartRow) (rows : list CartRow) :
  (∀ r q', P (set_quantity q' r) ↔ P r) →
  NoDup (map cart_id rows) → first ∈ rows → ¬ P first →
  filter P (map (bump q (cart_id first)) rows) = filter P rows.
Proof.
  intros HP. induction rows as [|r rows IH]; intros Hnd Hin Hfirst; [done|].
  cbn [map] in *. apply NoDup_cons in Hnd as [Hr Hnd].
  rewrite !filter_cons.
  destruct (decide (cart_id r = cart_id first)) as [Hid|Hid].
  - assert (r = first) as ->.
    { apply elem_of_cons in Hin as [->|Hin]; [done|].
      exfalso. apply Hr. rewrite Hid. by apply elem_of_map. }
    rewrite bump_absent by done.
    assert (Hb : ¬ P (bump q (cart_id first) first)).
    { intros Hb. by apply Hfirst, (bump_same P q (cart_id first) first HP). }
    destruct (decide (P (bump q (cart_id first) first))); [done|].
    by rewrite decide_False.
  - apply elem_of_cons in Hin as [->|Hin]; [done|].
    assert (bump q (cart_id first) r = r) as ->.
    { unfold bump. by destruct (decide (cart_id r = cart_id first)). }
    case_decide; [f_equal|]; by apply IH.
Qed.

Lemma cart_target_tables (customer product quantity now : Z) (db : DB) :
  (Product (cart_target customer product quantity now db),
   Payment (cart_target customer product quantity now db),
   Shipment (cart_target customer product quantity now db),
   Order (cart_target customer product quantity now db),
   Order_Item (cart_target customer product quantity now db))
  = (Product db, Payment db, Shipment db, Order db, Order_Item db).
Proof.
  unfold cart_target. by destruct (select_cart_line customer product db).
Qed.

(** What [add_to_cart] does to the rows outside a set [P] that depends on
    the customer and the product only and does not hold the pair added. *)
Lemma cart_target_other (P : CartRow → Prop) `{∀ r, Decision (P r)}
    (customer product quantity now : Z) (db : DB) :
  (∀ r q', P (set_quantity q' r) ↔ P r) →
  (∀ r, cart_customer_id r = customer → cart_product_id r = product → ¬ P r) →
  cart_keys_ok db →
  filter P (Cart (cart_target customer product quantity now db))
  = filter P (Cart db).
Proof.
  intros HP Hpair Hk. unfold cart_target, select_cart_line.
  destruct (filter _ (Cart db)) as [|first rest] eqn:Hlines; cbn.
  - rewrite filter_app. cbn. rewrite decide_False by (by apply Hpair).
    by rewrite app_nil_r.
  - assert (Hin : first ∈ filter (λ r, cart_customer_id r = customer ∧
                                       cart_product_id r = product) (Cart db))
      by (rewrite Hlines; left).
    apply list_elem_of_filter in Hin as [[Hc Hp] Hin].
    apply bump_filter_other; try done. by apply Hpair.
Qed.

(** X4. [add_to_cart] for one customer and one product, with unique keys,
    leaves alone the rows of every other pair, hence the cart and the listing
    of every other customer, and every table but [Cart]. *)
Theorem add_to_cart_isolated w customer product quantity b w' :
  cart_keys_ok (working w) →
  add_to_cart customer product quantity w = (Ok b, w') →
  (∀ c2 p2, (c2, p2) ≠ (customer, product) →
            lines_of c2 p2 (working w') = lines_of c2 p2 (working w)) ∧
  (∀ c2, c2 ≠ customer →
         cart_of c2 (working w') = cart_of c2 (working w) ∧
         select_cart_items c2 (working w') = select_cart_items c2 (working w)) ∧
  (Product (working w'), Payment (working w'), Shipment (working w'),
   Order (working w'), Order_Item (working w'))
  = (Product (working w), Payment (working w), Shipment (working w),
     Order (working w), Order_Item (working w)).
Proof.
  intros Hk (_ & Hc & Hw)%add_to_cart_result. rewrite Hw, Hc.
  pose proof (cart_target_tables customer product quantity (hd 0 (clock w))
                (working w)) as Ht.
  split_and!; [| |exact Ht].
  - intros c2 p2 Hne. unfold lines_of. apply cart_target_other; try done.
    intros r <- <- [? ?]. apply Hne. congruence.
  - intros c2 Hne.
    assert (Hcart : cart_of c2 (cart_target customer product quantity
                                  (hd 0 (clock w)) (working w))
                    = cart_of c2 (working w)).
    { unfold cart_of. apply cart_target_other; try done.
      intros r <- _ Heq. by apply Hne. }
    split; [done|]. unfold select_cart_items. unfold cart_of in Hcart.
    rewrite Hcart. unfold join_product.
    injection Ht as -> _ _ _ _. done.
Qed.

(** X5. [add_to_cart] entered with no transaction open ends in one of two
    ways: it returns [True] with its statement committed, or it raises (the
    storage error, or the [OverflowError] of an integer that does not fit)
    and the committed database is the one before the call. *)
Theorem add_to_cart_commits_or_raises w customer product quantity :
  clean w →
  match add_to_cart customer product quantity w with
  | (Ok b, w') =>
      b = true ∧ clean w' ∧
      committed w' =
        cart_target customer product quantity (hd 0 (clock w)) (committed w)
  | (Raise _, w') => committed w' = committed w
  end.
Proof.
  intros Hclean.
  pose proof (add_to_cart_triple false (committed w) (working w) (lastrowid w)
                (clock w) (uuids w) customer product quantity w) as H.
  destruct (add_to_cart customer product quantity w) as [[b|e] w'].
  - destruct H as (-> & Hc & Hw & _); [by unfold at_|].
    unfold clean in *. rewrite <- Hclean. done.
  - destruct H as [Hc _]; [by unfold at_|]. done.
Qed.

Lemma pair_count (customer product : Z) (rows : list CartRow) :
  NoDup (map (λ r, (cart_customer_id r, cart_product_id r)) rows) →
  (length (filter (λ r, cart_customer_id r = customer ∧
                        cart_product_id r = product) rows) ≤ 1)%nat.
Proof.
  intros Hnd.
  rewrite (list_filter_iff _
             (λ r, (cart_customer_id r, cart_product_id r) = (customer, product))).
  - by apply (key_count (λ r, (cart_customer_id r, cart_product_id r))).
  - intros r. split; [by intros [-> ->]|by intros [= -> ->]].
Qed.

Lemma bump_pairs q id (rows : list CartRow) :
  map (λ r, (cart_customer_id r, cart_product_id r)) (map (bump q id) rows)
  = map (λ r, (cart_customer_id r, cart_product_id r)) rows.
Proof.
  induction rows as [|r rows IH]; [done|]. cbn.
  destruct (bump_pair q id r) as [-> ->]. by rewrite IH.
Qed.

Lemma bump_filter_map (customer product q id : Z) (rows : list CartRow) :
  filter (λ r, cart_customer_id r = customer ∧ cart_product_id r = product)
         (map (bump q id) rows)
  = map (bump q id)
        (filter (λ r, cart_customer_id r = customer ∧ cart_product_id r = product)
                rows).
Proof.
  induction rows as [|r rows IH]; [done|]. cbn [map]. rewrite !filter_cons.
  destruct (bump_pair q id r) as [-> ->].
  case_decide; cbn [map]; by rewrite IH.
Qed.

(** X6. The rule "one cart row per customer and product" survives
    [add_to_cart], and after the call the pair has exactly one row, whose
    quantity is what the cart held of the product plus the quantity added. *)
Theorem add_to_cart_keeps_unique w customer product quantity b w' :
  cart_unique (working w) →
  add_to_cart customer product quantity w = (Ok b, w') →
  cart_unique (working w') ∧
  ∃ row,
    lines_of customer product (working w') = [row] ∧
    cart_quantity row =
      cart_quantity_of customer product (working w) + quantity.
Proof.
  intros Hu (_ & Hc & Hw)%add_to_cart_result. rewrite Hw, Hc. clear Hc Hw.
  pose proof (pair_count customer product _ Hu) as Hle.
  unfold cart_unique, cart_quantity_of, lines_of, cart_target,
    select_cart_line in *.
  destruct (filter _ (Cart (working w))) as [|first rest] eqn:Hlines;
    cbn [map image insert_cart update_cart_quantity Cart fst snd].
  - split.
    + rewrite map_app. cbn. apply NoDup_app. split_and!; [done| |apply NoDup_singleton].
      intros pr Hpr ->%list_elem_of_singleton.
      apply list_elem_of_In, in_map_iff in Hpr as (r & [= Hrc Hrp] & Hr).
      assert (Hin : r ∈ filter (λ r, cart_customer_id r = customer ∧
                                     cart_product_id r = product)
                               (Cart (working w))).
      { apply list_elem_of_filter. split; [done|by apply list_elem_of_In]. }
      rewrite Hlines in Hin. by apply elem_of_nil in Hin.
    + eexists. rewrite filter_app, Hlines. cbn. rewrite decide_True by done.
      split; [reflexivity|]. cbn. unfold sum; cbn. lia.
  - destruct rest as [|? ?]; [|cbn in Hle; lia].
    split; [by rewrite bump_pairs|].
    rewrite bump_filter_map, Hlines. cbn. unfold bump.
    rewrite decide_True by done. eexists. split; [reflexivity|].
    cbn. unfold sum; cbn. lia.
Qed.

End CartExtras.

(** ** More on [create_order] *)

Module OrderExtras.
Import Hoare UnitOfWork Facts OrderProperties CartProperties CartExtras.

(** A new rowid is above every rowid in use. *)
Lemma next_rowid_above (ids : list Z) (x : Z) : x ∈ ids → x < next_rowid ids.
Proof.
  destruct ids as [|i rest]; cbn; [by intros ?%elem_of_nil|].
  revert x. induction rest as [|y rest IH]; cbn; intros x Hx.
  - apply list_elem_of_singleton in Hx. lia.
  - rewrite !elem_of_cons in Hx. destruct Hx as [->|[->|Hx]].
    + specialize (IH i ltac:(left)). lia.
    + lia.
    + specialize (IH x ltac:(by right)). lia.
Qed.

Lemma placed_products w customer method addr product :
  Product (placed customer method addr w) !! product =
  take_stock (cart_quantity_of customer product (working w))
    <$> Product (working w) !! product.
Proof.
  unfold placed, spec_place_order; cbn. rewrite decrement_all_lookup.
  destruct (Product (working w) !! product) as [p|] eqn:Hp; [|done].
  unfold select_cart_items, cart_quantity_of, lines_of.
  rewrite joined_quantity by (rewrite Hp; eauto). done.
Qed.


(** X8. A successful [create_order] leaves no negative stock exactly when
    the cart asked of no product more than its stock. *)
Theorem create_order_stock_ok_iff w customer method addr order w' :
  create_order customer method addr w = (Ok (Some order), w') →
  stock_ok (committed w') ↔ enough_stock customer (working w).
Proof.
  intros (_ & _ & Hc & _)%create_order_success. rewrite Hc.
  unfold stock_ok, enough_stock. split.
  - intros Hnew product p Hp.
    specialize (Hnew product (take_stock (cart_quantity_of customer product
                                            (working w)) p)).
    rewrite placed_products, Hp in Hnew. specialize (Hnew eq_refl).
    cbn in Hnew. lia.
  - intros Hen product p'. rewrite placed_products.
    destruct (Product (working w) !! product) as [p|] eqn:Hp; [|done].
    intros [= <-]. specialize (Hen product p Hp). cbn in *. lia.
Qed.

(** X9. [create_order] changes nothing in the catalogue but stock: the same
    products exist, with the same name, description, price and category. *)
Theorem create_order_keeps_catalogue w customer method addr order w' product :
  create_order customer method addr w = (Ok (Some order), w') →
  identity_of <$> Product (committed w') !! product =
  identity_of <$> Product (working w) !! product.
Proof.
  intros (_ & _ & Hc & _)%create_order_success.
  rewrite Hc, placed_products. by destruct (Product (working w) !! product).
Qed.

Lemma placed_join w customer method addr (r : CartRow) :
  join_product (placed customer method addr w) r = join_product (working w) r.
Proof.
  unfold join_product. rewrite placed_products.
  by destruct (Product (working w) !! cart_product_id r).
Qed.

Lemma omap_ext {A B} (f g : A → option B) (l : list A) :
  (∀ x, f x = g x) → omap f l = omap g l.
Proof.
  intros Hfg. induction l as [|x l IH]; [done|]. cbn. by rewrite Hfg, IH.
Qed.

(** X10. A successful [create_order] leaves the cart rows and the cart
    listing of every other customer as they were. *)
Theorem create_order_other_carts w customer method addr order w' other :
  other ≠ customer →
  create_order customer method addr w = (Ok (Some order), w') →
  cart_of other (committed w') = cart_of other (working w) ∧
  select_cart_items other (committed w') = select_cart_items other (working w).
Proof.
  intros Hne (_ & _ & Hc & _)%create_order_success. rewrite Hc.
  assert (Hcart : cart_of other (placed customer method addr w)
                  = cart_of other (working w)).
  { unfold cart_of, placed, spec_place_order; cbn.
    rewrite list_filter_filter. apply list_filter_iff. intros r.
    split; [tauto|]. intros ->. done. }
  split; [done|]. unfold select_cart_items. unfold cart_of in Hcart.
  rewrite Hcart. apply omap_ext, placed_join.
Qed.

(** X11. The order a successful [create_order] inserts references the
    payment and the shipment inserted with it; the three ids are new in their
    tables, and the order id is above every earlier one.  The payment is in
    the customer's name with the method given, the shipment goes to the
    address given. *)
Theorem create_order_references w customer method addr order w' :
  create_order customer method addr w = (Ok (Some order), w') →
  ∃ p s o,
    Payment (committed w') = Payment (working w) ++ [p] ∧
    Shipment (committed w') = Shipment (working w) ++ [s] ∧
    Order (committed w') = Order (working w) ++ [o] ∧
    order_id o = order ∧
    order_payment_id o = payment_id p ∧
    order_shipment_id o = shipment_id s ∧
    (payment_id p ∉ map payment_id (Payment (working w))) ∧
    (shipment_id s ∉ map shipment_id (Shipment (working w))) ∧
    (∀ o', o' ∈ Order (working w) → order_id o' < order) ∧
    order_customer_id o = customer ∧
    payment_customer_id p = customer ∧
    payment_method p = method ∧
    address s = addr.
Proof.
  intros (Hid & _ & Hc & _)%create_order_success. rewrite Hc.
  unfold placed, spec_place_order. cbn [Payment Shipment Order].
  do 3 eexists. split_and!; try reflexivity; cbn.
  - done.
  - apply next_rowid_fresh.
  - apply next_rowid_fresh.
  - intros o' Ho'. rewrite Hid. by apply next_rowid_above, elem_of_map.
Qed.

(** *** The tracking number *)

Lemma upper_ascii_not_lowercase (c : ascii) : ¬ lowercase (Str.upper_ascii c).
Proof.
  unfold lowercase, Str.upper_ascii.
  destruct (Nat.leb 97 (nat_of_ascii c) && Nat.leb (nat_of_ascii c) 122)%bool
    eqn:Hc.
  - apply andb_true_iff in Hc as [H1%Nat.leb_le H2%Nat.leb_le].
    rewrite nat_ascii_embedding by lia. lia.
  - intros [H1%Nat.leb_le H2%Nat.leb_le]. by rewrite H1, H2 in Hc.
Qed.

Lemma upper_chars (s : string) : Forall (λ c, ¬ lowercase c) (chars (Str.upper s)).
Proof.
  induction s as [|c s IH]; cbn; constructor; [|done].
  apply upper_ascii_not_lowercase.
Qed.

Lemma upper_length (s : string) : String.length (Str.upper s) = String.length s.
Proof. induction s as [|c s IH]; cbn; [done|]. by rewrite IH. Qed.

Lemma prefix_length (n : nat) (s : string) :
  String.length (Str.prefix n s) = (n `min` String.length s)%nat.
Proof.
  revert s. induction n as [|n IH]; intros [|c s]; cbn; try done.
  by rewrite IH.
Qed.

Lemma append_length (s1 s2 : string) :
  String.length (s1 +:+ s2) = (String.length s1 + String.length s2)%nat.
Proof. induction s1 as [|c s1 IH]; simpl; [done|]. by f_equal. Qed.

(** X12. The shipment of a successful [create_order] carries a tracking
    number made of "UNIQLO" and the first eight characters of the uuid's
    hexadecimal form with no lowercase letter left; from a uuid of at least
    eight characters that is six plus eight characters. *)
Theorem create_order_tracking w customer method addr order w' :
  create_order customer method addr w = (Ok (Some order), w') →
  ∃ s code,
    Shipment (committed w') = Shipment (working w) ++ [s] ∧
    tracking_number s = ("UNIQLO" +:+ code)%string ∧
    code = Str.upper (Str.prefix 8 (hd ""%string (uuids w))) ∧
    Forall (λ c, ¬ lowercase c) (chars code) ∧
    String.length code = (8 `min` String.length (hd ""%string (uuids w)))%nat ∧
    ((8 ≤ String.length (hd ""%string (uuids w)))%nat →
     String.length (tracking_number s) = 14%nat).
Proof.
  intros (_ & _ & Hc & _)%create_order_success. rewrite Hc.
  unfold placed, spec_place_order, tracking_of. cbn [Shipment].
  do 2 eexists. split_and!; try reflexivity.
  - apply upper_chars.
  - by rewrite upper_length, prefix_length.
  - intros Hlen. cbn [tracking_number].
    rewrite append_length, upper_length, prefix_length.
    change (String.length "UNIQLO") with 6%nat. lia.
Qed.

(** X13. Submitting the order a second time, right after it was placed,
    places nothing: the cart is empty, the call returns [None] and the
    database stays as the first order left it. *)
Theorem create_order_twice w customer method addr order w1 method2 addr2 :
  create_order customer method addr w = (Ok (Some order), w1) →
  ∃ w2,
    create_order customer method2 addr2 w1 = (Ok None, w2) ∧
    committed w2 = committed w1 ∧
    working w2 = working w1.
Proof.
  intros (_ & _ & Hc & Hw)%create_order_success.
  apply create_order_nothing_listed; [exact Hw|].
  apply empty_cart_no_items. rewrite Hw, Hc.
  unfold cart_of, placed, spec_place_order; cbn.
  apply filter_none. intros r [Hr _]%list_elem_of_filter. done.
Qed.

(** *** Invariants *)

Lemma NoDup_snoc_fresh (ids : list Z) :
  NoDup ids → NoDup (ids ++ [next_rowid ids]).
Proof.
  intros Hnd. apply NoDup_app. split_and!; [done| |apply NoDup_singleton].
  intros x Hx ->%list_elem_of_singleton. by apply next_rowid_fresh in Hx.
Qed.

Lemma NoDup_map_filter {A K} (f : A → K) (P : A → Prop) `{∀ x, Decision (P x)}
    (l : list A) :
  NoDup (map f l) → NoDup (map f (filter P l)).
Proof.
  induction l as [|x l IH]; cbn [map]; intros Hnd; [done|].
  apply NoDup_cons in Hnd as [Hx Hnd]. rewrite filter_cons.
  case_decide; [|by apply IH]. cbn [map]. apply NoDup_cons. split; [|by apply IH].
  intros Hin. apply Hx. apply list_elem_of_In, in_map_iff in Hin as (y & <- & Hy).
  apply list_elem_of_In, list_elem_of_filter in Hy as [_ Hy]. by apply elem_of_map.
Qed.

Lemma new_item_ids_from (first_id order : Z) (items : list CartItem) (id : Z) :
  id ∈ map order_item_id (new_order_items first_id order items) → first_id ≤ id.
Proof.
  revert first_id. induction items as [|it items IH]; intros first_id; cbn.
  - by intros ?%elem_of_nil.
  - intros [->|Hin%IH]%elem_of_cons; lia.
Qed.

Lemma new_item_ids_NoDup (first_id order : Z) (items : list CartItem) :
  NoDup (map order_item_id (new_order_items first_id order items)).
Proof.
  revert first_id. induction items as [|it items IH]; intros first_id; cbn.
  - apply NoDup_nil_2.
  - apply NoDup_cons. split; [|apply IH].
    intros Hin%new_item_ids_from. lia.
Qed.

(** X14. Whatever its outcome, [create_order] keeps the primary keys of
    [Cart], [Payment], [Shipment], [Order] and [Order_Item] unique, and keeps
    the cart at one row per customer and product. *)
Theorem create_order_keeps_keys w customer method addr r w' :
  clean w → keys_ok (working w) → cart_unique (working w) →
  create_order customer method addr w = (Ok r, w') →
  keys_ok (committed w') ∧ cart_unique (committed w').
Proof.
  intros Hclean (Hk1 & Hk2 & Hk3 & Hk4 & Hk5) Hu Hrun.
  destruct (create_order_run w customer method addr) as (r1 & w1 & Hr & Hpost).
  rewrite Hrun in Hr. injection Hr as <- <-.
  destruct r as [order|]; cbn in Hpost.
  - destruct Hpost as (_ & _ & -> & _).
    unfold keys_ok, cart_unique, spec_place_order; cbn.
    rewrite !map_app; cbn. split_and!.
    + by apply NoDup_map_filter.
    + by apply NoDup_snoc_fresh.
    + by apply NoDup_snoc_fresh.
    + by apply NoDup_snoc_fresh.
    + apply NoDup_app. split_and!; [done| |apply new_item_ids_NoDup].
      intros id Hold Hnew%new_item_ids_from.
      apply next_rowid_above in Hold. lia.
    + by apply NoDup_map_filter.
  - destruct Hpost as (-> & _). unfold clean in Hclean. rewrite <- Hclean.
    by unfold keys_ok.
Qed.

End OrderExtras.

(** ** The list of orders and the status set by the staff *)

Module BackofficeFacts.
Import Hoare UnitOfWork Facts OrderProperties CartProperties CartExtras
  OrderExtras.

(** *** The sorter *)

Lemma insert_view_perm (v : OrderView) (l : list OrderView) :
  insert_view v l ≡ₚ v :: l.
Proof.
  induction l as [|y l IH]; [done|]. cbn [insert_view].
  case_decide; [|done]. rewrite IH. apply Permutation_swap.
Qed.

Lemma order_by_date_desc_perm (l : list OrderView) : order_by_date_desc l ≡ₚ l.
Proof.
  induction l as [|v l IH]; [done|]. cbn. by rewrite insert_view_perm, IH.
Qed.

Lemma insert_view_sorted (v : OrderView) (l : list OrderView) :
  StronglySorted newest_first l → StronglySorted newest_first (insert_view v l).
Proof.
  induction 1 as [|y l Hs IH Hy]; cbn [insert_view].
  - repeat constructor.
  - case_decide as Hd.
    + constructor; [done|]. rewrite insert_view_perm.
      constructor; [unfold newest_first; lia|done].
    + constructor; [by constructor|].
      constructor; [unfold newest_first; lia|].
      eapply Forall_impl; [exact Hy|]. intros z Hz.
      unfold newest_first in *. lia.
Qed.

Lemma order_by_date_desc_sorted (l : list OrderView) :
  StronglySorted newest_first (order_by_date_desc l).
Proof.
  induction l as [|v l IH]; [constructor|]. cbn. by apply insert_view_sorted.
Qed.

(** Rows of the same date are not moved past each other. *)
Lemma insert_view_same_date (d : Z) (v : OrderView) (l : list OrderView) :
  filter (λ x, ov_order_date x = d) (insert_view v l) =
  filter (λ x, ov_order_date x = d) (v :: l).
Proof.
  induction l as [|y l IH]; [done|]. cbn [insert_view].
  case_decide as Hd; [|done].
  rewrite filter_cons, IH, !filter_cons.
  repeat case_decide; try done. exfalso. lia.
Qed.

Lemma order_by_date_desc_stable (d : Z) (l : list OrderView) :
  filter (λ x, ov_order_date x = d) (order_by_date_desc l) =
  filter (λ x, ov_order_date x = d) l.
Proof.
  induction l as [|v l IH]; [done|]. cbn [order_by_date_desc foldr].
  rewrite insert_view_same_date, !filter_cons.
  fold (order_by_date_desc l). by rewrite IH.
Qed.

(** The sorter looks at the dates only. *)
Lemma insert_view_map (f : OrderView → OrderView) (v : OrderView)
    (l : list OrderView) :
  (∀ x, ov_order_date (f x) = ov_order_date x) →
  insert_view (f v) (map f l) = map f (insert_view v l).
Proof.
  intros Hf. induction l as [|y l IH]; [done|]. cbn [map insert_view].
  rewrite !Hf. case_decide; [|done]. cbn [map]. by rewrite IH.
Qed.

Lemma order_by_date_desc_map (f : OrderView → OrderView) (l : list OrderView) :
  (∀ x, ov_order_date (f x) = ov_order_date x) →
  order_by_date_desc (map f l) = map f (order_by_date_desc l).
Proof.
  intros Hf. induction l as [|v l IH]; [done|].
  cbn [map order_by_date_desc foldr]. fold (order_by_date_desc (map f l)).
  fold (order_by_date_desc l). by rewrite IH, insert_view_map.
Qed.

(** *** The join *)

Lemma execute_query_ok {A} (q : DB → A) w a w' :
  execute_query q w = (Ok a, w') →
  a = q (working w) ∧ working w' = working w ∧ committed w' = committed w.
Proof.
  unfold execute_query, cursor_query, fallible, fetch, mbind, M_bind.
  destruct w as [c d l r fs ck u e]; cbn.
  destruct fs as [|[] fs]; cbn; intros H; by simplify_eq.
Qed.

Lemma elem_of_flat_map {A B} (f : A → list B) (l : list A) (y : B) :
  y ∈ flat_map f l ↔ ∃ x, x ∈ l ∧ y ∈ f x.
Proof.
  rewrite list_elem_of_In, in_flat_map. split; intros (x & Hx & Hy); exists x.
  - by rewrite !list_elem_of_In.
  - by rewrite <- !list_elem_of_In.
Qed.

Lemma elem_of_map_iff {A B} (f : A → B) (l : list A) (y : B) :
  y ∈ map f l ↔ ∃ x, x ∈ l ∧ y = f x.
Proof.
  rewrite list_elem_of_In, in_map_iff. split; intros (x & H1 & H2); exists x.
  - by rewrite list_elem_of_In.
  - by rewrite <- list_elem_of_In.
Qed.

(** The rows the LEFT JOIN gives for one order. *)
Lemma elem_of_join_shipment (db : DB) (o : OrderRow) (v : OrderView) :
  v ∈ join_shipment db o ↔
  ov_order_id v = order_id o ∧ ov_order_date v = order_date o ∧
  ov_total_amount v = total_amount o ∧ ov_status v = status o ∧
  ((∃ s, s ∈ Shipment db ∧ shipment_id s = order_shipment_id o ∧
         ov_tracking_number v = Some (tracking_number s)) ∨
   (ov_tracking_number v = None ∧
    ∀ s, s ∈ Shipment db → shipment_id s ≠ order_shipment_id o)).
Proof.
  unfold join_shipment.
  destruct (filter _ (Shipment db)) as [|s0 found] eqn:Hf.
  - rewrite list_elem_of_singleton. split.
    + intros ->. cbn. split_and!; try done. right. split; [done|].
      intros s Hs Hid.
      assert (Hin : s ∈ filter (λ s, shipment_id s = order_shipment_id o)
                               (Shipment db))
        by (by apply list_elem_of_filter).
      rewrite Hf in Hin. by apply elem_of_nil in Hin.
    + intros (H1 & H2 & H3 & H4 & [(s & Hs & Hid & _)|[H5 _]]).
      * assert (Hin : s ∈ filter (λ s, shipment_id s = order_shipment_id o)
                                 (Shipment db))
          by (by apply list_elem_of_filter).
        rewrite Hf in Hin. by apply elem_of_nil in Hin.
      * destruct v; cbn in *. by subst.
  - rewrite <- Hf. rewrite elem_of_map_iff. split.
    + intros (s & [Hid Hs]%list_elem_of_filter & ->). cbn.
      split_and!; try done. left. eauto.
    + intros (H1 & H2 & H3 & H4 & [(s & Hs & Hid & H5)|[_ Hno]]).
      * exists s. split; [by apply list_elem_of_filter|].
        destruct v; cbn in *. by subst.
      * exfalso. assert (Hin : s0 ∈ filter (λ s, shipment_id s = order_shipment_id o)
                                           (Shipment db))
          by (rewrite Hf; left).
        apply list_elem_of_filter in Hin as [Hid Hs]. by apply (Hno s0).
Qed.

Lemma elem_of_select_customer_orders (customer : Z) (db : DB) (v : OrderView) :
  v ∈ select_customer_orders customer db ↔
  ∃ o, o ∈ Order db ∧ order_customer_id o = customer ∧ v ∈ join_shipment db o.
Proof.
  unfold select_customer_orders, joined_orders.
  rewrite order_by_date_desc_perm, elem_of_flat_map.
  split.
  - intros (o & [Hc Ho]%list_elem_of_filter & Hv). eauto.
  - intros (o & Ho & Hc & Hv). exists o. split; [|done].
    by apply list_elem_of_filter.
Qed.

(** With unique shipment keys the join gives one row per order. *)
Lemma join_shipment_one (db : DB) (o : OrderRow) :
  NoDup (map shipment_id (Shipment db)) →
  join_shipment db o =
  [mkView (order_id o) (order_date o) (total_amount o) (status o)
          (tracking_number <$>
             head (filter (λ s, shipment_id s = order_shipment_id o)
                          (Shipment db)))].
Proof.
  intros Hk. unfold join_shipment.
  pose proof (key_count shipment_id (order_shipment_id o) _ Hk) as Hle.
  destruct (filter _ (Shipment db)) as [|s [|s' found]]; cbn in *;
    [done|done|lia].
Qed.

Lemma joined_orders_one (customer : Z) (db : DB) :
  NoDup (map shipment_id (Shipment db)) →
  joined_orders customer db =
  map (λ o, mkView (order_id o) (order_date o) (total_amount o) (status o)
                   (tracking_number <$>
                      head (filter (λ s, shipment_id s = order_shipment_id o)
                                   (Shipment db))))
      (filter (λ o, order_customer_id o = customer) (Order db)).
Proof.
  intros Hk. unfold joined_orders.
  induction (filter _ (Order db)) as [|o os IH]; [done|].
  cbn [flat_map map]. by rewrite IH, join_shipment_one.
Qed.

(** X16. [get_customer_orders] only reads.  What it returns is the rows of
    the join for the customer's orders, each as often as the join gives it,
    the newest first, and rows of the same date in the order of the table.
    A row carries the id, date, total and status of an order of the customer
    and the tracking number of its shipment (none when the shipment is
    missing).  With unique shipment keys that is exactly one row per order
    of the customer. *)
Theorem get_customer_orders_lists w customer l w' :
  get_customer_orders customer w = (Ok l, w') →
  working w' = working w ∧ committed w' = committed w ∧
  l ≡ₚ joined_orders customer (working w) ∧
  StronglySorted newest_first l ∧
  (∀ d, filter (λ v, ov_order_date v = d) l =
        filter (λ v, ov_order_date v = d) (joined_orders customer (working w))) ∧
  (∀ v, v ∈ joined_orders customer (working w) ↔
        ∃ o, o ∈ Order (working w) ∧ order_customer_id o = customer ∧
             ov_order_id v = order_id o ∧ ov_order_date v = order_date o ∧
             ov_total_amount v = total_amount o ∧ ov_status v = status o ∧
             ((∃ s, s ∈ Shipment (working w) ∧
                    shipment_id s = order_shipment_id o ∧
                    ov_tracking_number v = Some (tracking_number s)) ∨
              (ov_tracking_number v = None ∧
               ∀ s, s ∈ Shipment (working w) →
                    shipment_id s ≠ order_shipment_id o))) ∧
  (NoDup (map shipment_id (Shipment (working w))) →
   l ≡ₚ map (λ o, mkView (order_id o) (order_date o) (total_amount o)
                         (status o)
                         (tracking_number <$>
                            head (filter (λ s, shipment_id s = order_shipment_id o)
                                         (Shipment (working w)))))
            (filter (λ o, order_customer_id o = customer) (Order (working w)))).
Proof.
  unfold get_customer_orders. intros (-> & Hw & Hc)%execute_query_ok.
  unfold select_customer_orders. split_and!; try done.
  - apply order_by_date_desc_perm.
  - apply order_by_date_desc_sorted.
  - intros d. apply order_by_date_desc_stable.
  - intros v. unfold joined_orders. rewrite elem_of_flat_map. split.
    + intros (o & [Hcu Ho]%list_elem_of_filter & Hv).
      exists o. split; [done|]. split; [done|]. by apply elem_of_join_shipment.
    + intros (o & Ho & Hcu & Hv). exists o.
      split; [by apply list_elem_of_filter|]. by apply elem_of_join_shipment.
  - intros Hk. rewrite order_by_date_desc_perm. by rewrite joined_orders_one.
Qed.

(** X17. An order that [create_order] has placed shows up in the customer's
    list of orders, with the id returned, the total charged, the status
    'Processing' and the tracking number of its shipment. *)
Theorem placed_order_is_listed w customer method addr order w1 l w2 :
  create_order customer method addr w = (Ok (Some order), w1) →
  get_customer_orders customer w1 = (Ok l, w2) →
  mkView order (t_order_of w)
         (sum (map ci_total_price (select_cart_items customer (working w))))
         "Processing" (Some (tracking_of w)) ∈ l.
Proof.
  intros (Hid & _ & Hc & Hw)%create_order_success.
  unfold get_customer_orders. intros (-> & _ & _)%execute_query_ok.
  rewrite Hw, Hc. apply elem_of_select_customer_orders.
  unfold placed, spec_place_order. cbn [Order Shipment].
  eexists. split; [apply elem_of_app; right; by left|]. split; [done|].
  apply elem_of_join_shipment. cbn. rewrite Hid. split_and!; try done.
  left. eexists. split; [apply elem_of_app; right; by left|]. by cbn.
Qed.

Lemma restatus_date (st : string) (id : Z) (v : OrderView) :
  ov_order_date (restatus st id v) = ov_order_date v.
Proof. unfold restatus. by case_decide. Qed.

(** The join of an order after the UPDATE is the join before it, with the
    status replaced when the order is the one updated. *)
Lemma join_shipment_restatus (st : string) (id : Z) (db db' : DB)
    (o : OrderRow) :
  Shipment db' = Shipment db →
  join_shipment db' (if decide (order_id o = id) then set_status st o else o)
  = map (restatus st id) (join_shipment db o).
Proof.
  intros Hs. unfold join_shipment. rewrite Hs.
  destruct (decide (order_id o = id)) as [Hid|Hid]; cbn [set_status
    order_shipment_id order_id order_date total_amount status];
    destruct (filter _ (Shipment db)) as [|s found]; cbn [map];
    unfold restatus; cbn [ov_order_id].
  - by rewrite decide_True.
  - rewrite decide_True by done. cbn. f_equal.
    rewrite map_map. apply map_ext. intros s'. by rewrite decide_True.
  - by rewrite decide_False.
  - rewrite decide_False by done. f_equal.
    rewrite map_map. apply map_ext. intros s'. by rewrite decide_False.
Qed.

Lemma flat_join_restatus (st : string) (id customer : Z) (db db' : DB)
    (os : list OrderRow) :
  Shipment db' = Shipment db →
  flat_map (join_shipment db')
    (filter (λ o, order_customer_id o = customer)
       (map (λ o, if decide (order_id o = id) then set_status st o else o) os))
  = map (restatus st id)
      (flat_map (join_shipment db)
         (filter (λ o, order_customer_id o = customer) os)).
Proof.
  intros Hs. induction os as [|o os IH]; [done|].
  cbn [map]. rewrite !filter_cons.
  assert (order_customer_id
            (if decide (order_id o = id) then set_status st o else o)
          = order_customer_id o) as -> by (by case_decide).
  destruct (decide (order_customer_id o = customer)); [|exact IH].
  cbn [flat_map]. rewrite map_app, IH. f_equal.
  by apply join_shipment_restatus.
Qed.

Lemma joined_orders_restatus (st : string) (id customer : Z) (db : DB) :
  joined_orders customer (image (update_order_status st id db)) =
  map (restatus st id) (joined_orders customer db).
Proof.
  unfold joined_orders. cbn [image update_order_status Order].
  by apply flat_join_restatus.
Qed.

(** X18. The staff's status update, when it returns, is committed, and the
    list of orders of every customer is afterwards the list before, row for
    row and in the same order, with the status of that order replaced by the
    new one, whatever the old status was.  In [Order] nothing but the status
    changes, the other tables are untouched, and the answer is the number of
    orders with that id. *)
Theorem staff_update_status_shown w new_status id n w' :
  staff_update_status new_status id w = (Ok n, w') →
  committed w' = working w' ∧
  (∀ customer,
     select_customer_orders customer (working w') =
     map (restatus new_status id)
         (select_customer_orders customer (working w))) ∧
  map (λ o, (order_id o, order_customer_id o, order_date o, total_amount o,
             order_payment_id o, order_shipment_id o))
      (Order (working w'))
  = map (λ o, (order_id o, order_customer_id o, order_date o, total_amount o,
               order_payment_id o, order_shipment_id o))
        (Order (working w)) ∧
  (∀ o, o ∈ Order (working w') → order_id o = id → status o = new_status) ∧
  (Product (working w'), Cart (working w'), Payment (working w'),
   Shipment (working w'), Order_Item (working w'))
  = (Product (working w), Cart (working w), Payment (working w),
     Shipment (working w), Order_Item (working w)) ∧
  n = Z.of_nat (length (filter (λ o, order_id o = id) (Order (working w)))).
Proof.
  unfold staff_update_status. intros (Hn & Hc & Hw)%execute_update_ok.
  rewrite Hc, Hw. split; [done|]. split_and!.
  - intros customer. unfold select_customer_orders.
    rewrite joined_orders_restatus.
    apply order_by_date_desc_map. intros v. apply restatus_date.
  - cbn [image update_order_status Order]. rewrite map_map.
    apply map_ext. intros o. by case_decide.
  - cbn [image update_order_status Order].
    intros o' (o & Ho & ->)%elem_of_map_iff.
    case_decide; [done|]. by intros ?.
  - done.
  - exact Hn.
Qed.

End BackofficeFacts.

(** ** Accounts: sign-up and login *)

Module AccountFacts.
Import Accounts.
Import UnitOfWork Facts CartExtras.

(** [execute_update] of the INSERT, case by case. *)
Lemma insert_cases (first last mail hashed addr phone : string) r z r' :
  execute_update (insert_customer first last mail hashed addr phone) r
    = (z, r') →
  (z = Done 1 ∧ (mail ∉ map email (reg_working r)) ∧
   reg_working r' =
     reg_working r ++ [mkCustomer (next_rowid (map customer_id (reg_working r)))
                                  first last mail hashed addr phone] ∧
   reg_committed r' = reg_working r') ∨
  (z = Fail IntegrityError ∧ mail ∈ map email (reg_working r) ∧
   reg_working r' = reg_working r ∧ reg_committed r' = reg_committed r) ∨
  (z = Fail OperationalError ∧ reg_committed r' = reg_committed r ∧
   (reg_working r' = reg_working r ∨
    (mail ∉ map email (reg_working r)) ∧
    reg_working r' =
      reg_working r ++ [mkCustomer (next_rowid (map customer_id (reg_working r)))
                                   first last mail hashed addr phone])).
Proof.
  unfold execute_update, insert_customer.
  destruct r as [c t fs]; cbn.
  destruct fs as [|[] fs]; cbn.
  - destruct (decide (mail ∈ map email t)); cbn; intros [= <- <-]; cbn;
      [right; left|left]; done.
  - intros [= <- <-]; cbn. right; right. auto.
  - destruct (decide (mail ∈ map email t)); cbn.
    + intros [= <- <-]; cbn. right; left. done.
    + destruct fs as [|[] fs]; cbn; intros [= <- <-]; cbn;
        [left|right; right|left]; auto.
Qed.

Lemma lookup_cases (mail : string) r z r' :
  get_customer_by_email mail r = (z, r') →
  reg_working r' = reg_working r ∧ reg_committed r' = reg_committed r ∧
  (z = Fail OperationalError ∨
   z = Done (head (select_by_email mail (reg_working r)))).
Proof.
  unfold get_customer_by_email, execute_query, mbind, R_bind, mret, R_ret.
  destruct r as [c t fs]; cbn.
  destruct fs as [|[] fs]; cbn; intros H; injection H as <- <-; cbn;
    (split; [done|]); (split; [done|]); [right|left|right]; try done;
    by destruct (select_by_email mail t).
Qed.

Section WithHash.
Variable h : string → string.

(** X19. [create_customer] answers [False] exactly when the email is taken,
    and then leaves the table as it was; an answer [True] means that one row
    was appended and committed, under a new id, with the hash of the password
    in place of the password. *)
Theorem create_customer_answer first last mail pw addr phone r b r' :
  create_customer h first last mail pw addr phone r = (Done b, r') →
  (b = false ↔ mail ∈ map email (reg_working r)) ∧
  (b = false →
   reg_working r' = reg_working r ∧ reg_committed r' = reg_committed r) ∧
  (b = true →
   ∃ c, reg_working r' = reg_working r ++ [c] ∧
        reg_committed r' = reg_working r' ∧
        (customer_id c ∉ map customer_id (reg_working r)) ∧
        (first_name c, last_name c, email c, customer_address c, phone_number c)
          = (first, last, mail, addr, phone) ∧
        password c = h pw).
Proof.
  unfold create_customer, hash_password.
  destruct (execute_update _ r) as [z r1] eqn:Hrun.
  apply insert_cases in Hrun as
    [(-> & Hnew & Hw & Hc)|[(-> & Hin & Hw & Hc)|(-> & _)]];
    intros [= <- <-].
  - split_and!; [split; [done|by intros ?]|done|]. intros _.
    eexists. split_and!; try done. cbn. apply next_rowid_fresh.
  - split_and!; [done|done|done].
Qed.

(** X20. The email stays unique in [Customer] whatever [create_customer]
    does: return either answer, or raise. *)
Theorem create_customer_keeps_emails_unique first last mail pw addr phone r :
  emails_unique (reg_working r) →
  emails_unique (reg_working (create_customer h first last mail pw addr phone r).2).
Proof.
  intros Hu. unfold create_customer, hash_password.
  destruct (execute_update _ r) as [z r1] eqn:Hrun.
  assert (Hr1 : emails_unique (reg_working r1)).
  { assert (Hsnoc : ∀ c, email c = mail → mail ∉ map email (reg_working r) →
                         emails_unique (reg_working r ++ [c])).
    { intros c Hc Hnew. unfold emails_unique. rewrite map_app. cbn.
      apply NoDup_app. split_and!; [done| |apply NoDup_singleton].
      intros x Hx ->%list_elem_of_singleton. by rewrite Hc in Hx. }
    apply insert_cases in Hrun as
      [(_ & Hnew & Hw & _)|[(_ & _ & Hw & _)|(_ & _ & [Hw|[Hnew Hw]])]];
      rewrite Hw; try done; by apply Hsnoc. }
  by destruct z as [?|[]].
Qed.

(** X21. After a sign-up that [create_customer] accepted, the login with the
    same email and password, when it returns, opens a session for the new
    customer: the id the row got, the first and last name, the email. *)
Theorem signup_then_login first last mail pw addr phone r r1 res r2 :
  truthy mail = true → truthy pw = true →
  create_customer h first last mail pw addr phone r = (Done true, r1) →
  customer_login h mail pw r1 = (Done res, r2) →
  res = inr (mkSession (next_rowid (map customer_id (reg_working r)))
                       (first +:+ " " +:+ last) mail) ∧
  reg_working r2 = reg_working r1.
Proof.
  intros Hm Hp Hcreate. unfold create_customer, hash_password in Hcreate.
  destruct (execute_update _ r) as [z r1'] eqn:Hrun.
  apply insert_cases in Hrun as
    [(-> & Hnew & Hw & Hc)|[(-> & _)|(-> & _)]]; [|done|done].
  injection Hcreate as <-.
  unfold customer_login. rewrite Hm, Hp. cbn [andb].
  unfold mbind, R_bind.
  destruct (get_customer_by_email mail r1') as [z r2'] eqn:Hlook.
  apply lookup_cases in Hlook as (Hw2 & _ & [-> | ->]); [done|].
  unfold mret, R_ret. intros [= <- <-]. split; [|done].
  rewrite Hw. unfold select_by_email. rewrite filter_app.
  rewrite (filter_none _ (reg_working r)).
  2:{ intros c Hc' Heq. apply Hnew. rewrite <- Heq. by apply elem_of_map. }
  cbn. rewrite decide_True by done. cbn.
  unfold verify_password, hash_password. by rewrite bool_decide_true.
Qed.

(** X22. A login only reads the table, and it opens a session only for a row
    of the table with that email whose stored password is the hash of the
    password typed; with no row for the email it answers 'Invalid email or
    password'. *)
Theorem customer_login_sound mail pw r res r' :
  customer_login h mail pw r = (Done res, r') →
  reg_working r' = reg_working r ∧ reg_committed r' = reg_committed r ∧
  (∀ session, res = inr session →
     ∃ c, c ∈ reg_working r ∧ email c = mail ∧ password c = h pw ∧
          session = mkSession (customer_id c)
                              (first_name c +:+ " " +:+ last_name c) mail) ∧
  (truthy mail = true → truthy pw = true →
   mail ∉ map email (reg_working r) →
   res = inl "Invalid email or password"%string).
Proof.
  unfold customer_login.
  destruct (truthy mail && truthy pw)%bool eqn:Hfilled.
  - unfold mbind, R_bind.
    destruct (get_customer_by_email mail r) as [z r1] eqn:Hlook.
    apply lookup_cases in Hlook as (Hw & Hc & [-> | ->]); [done|].
    unfold mret, R_ret. intros [= <- <-]. split_and!; try done.
    + intros session.
      destruct (select_by_email mail (reg_working r)) as [|c rest] eqn:Hsel;
        cbn; [done|].
      assert (Hin : c ∈ select_by_email mail (reg_working r))
        by (rewrite Hsel; left).
      apply list_elem_of_filter in Hin as [Hmail Hin].
      unfold verify_password, hash_password. case_bool_decide as Hpw; [|done].
      intros [= <-]. exists c. by rewrite Hmail.
    + intros _ _ Hnone. unfold select_by_email. rewrite filter_none; [done|].
      intros c Hc' Heq. apply Hnone. rewrite <- Heq. by apply elem_of_map.
  - unfold mret, R_ret. intros [= <- <-]. split_and!; try done.
    intros Hm Hp. by rewrite Hm, Hp in Hfilled.
Qed.

(** X23. The sign-up form reports success exactly when every required field
    is filled, the two passwords agree and the email is not taken; in every
    other case that it reports, the table is as before. *)
Theorem customer_signup_answer first last mail pw confirm addr phone r ok msg r' :
  customer_signup h first last mail pw confirm addr phone r
    = (Done (ok, msg), r') →
  (ok = true ↔
   (truthy first && truthy last && truthy mail && truthy pw && truthy confirm
    = true)%bool ∧ pw = confirm ∧ mail ∉ map email (reg_working r)) ∧
  (ok = false →
   reg_working r' = reg_working r ∧ reg_committed r' = reg_committed r).
Proof.
  unfold customer_signup.
  destruct (truthy first && truthy last && truthy mail && truthy pw &&
            truthy confirm)%bool eqn:Hfilled.
  2:{ unfold mret, R_ret. intros [= <- <- <-].
      split; [|done]. split; [done|]. by intros (? & _). }
  case_bool_decide as Hpw.
  2:{ unfold mret, R_ret. intros [= <- <- <-].
      split; [|done]. split; [done|]. by intros (_ & ? & _). }
  unfold mbind, R_bind.
  destruct (create_customer h first last mail pw addr phone r) as [[b|e] r1]
    eqn:Hcreate; [|done].
  unfold create_customer, hash_password in Hcreate.
  destruct (execute_update _ r) as [z r1'] eqn:Hrun.
  apply insert_cases in Hrun as
    [(-> & Hnew & Hw & Hc)|[(-> & Hin & Hw & Hc)|(-> & _)]];
    [| |done]; injection Hcreate as <- <-;
    unfold mret, R_ret; intros [= <- <- <-].
  - split; [|done]. split; [done|]. done.
  - split; [|done]. split; [done|]. by intros (_ & _ & ?).
Qed.

End WithHash.

End AccountFacts.

(** ** The "Place Order" button *)

Module PageFacts.
Import Hoare UnitOfWork Facts OrderProperties CartExtras OrderExtras.

(** X24. What the cart page reports is what happened.  Entered with no
    transaction open and order ids from 1 up: when the page shows the success
    message, the address was filled in, the order whose id it prints is
    committed with its whole unit of work; when it shows an error, the
    database is exactly as before. *)
Theorem place_order_click_honest w customer method addr res w' :
  clean w → order_ids_positive (working w) →
  place_order_click customer method addr w = (Ok res, w') →
  match res with
  | Some msg =>
      Accounts.truthy addr = true ∧
      committed w' = placed customer method addr w ∧
      ∃ order,
        msg = ("Order placed successfully! Order ID: " +:+ pretty order)%string ∧
        order ∈ map order_id (Order (committed w')) ∧
        (order ∉ map order_id (Order (working w)))
  | None => committed w' = committed w ∧ working w' = working w
  end.
Proof.
  intros Hclean Hpos. unfold place_order_click.
  destruct (Accounts.truthy addr) eqn:Haddr.
  2:{ unfold mbind, M_bind, st_error, mret, M_ret. by intros [= <- <-]. }
  unfold mbind at 1. unfold M_bind.
  destruct (create_order_run w customer method addr) as (r & w1 & Hr & Hpost).
  rewrite Hr. destruct r as [order|]; cbn in Hpost.
  - destruct Hpost as (Hid & _ & Hc & Hw).
    assert (Hge : 1 ≤ order).
    { rewrite Hid. unfold order_ids_positive in Hpos.
      destruct (Order (working w)) as [|o rest] eqn:Ho; cbn; [lia|].
      apply Forall_cons in Hpos as [Hp _].
      pose proof (next_rowid_above (map order_id (o :: rest)) (order_id o)
                    ltac:(left)) as Hlt.
      cbn in Hlt. lia. }
    rewrite decide_False by lia. unfold mret, M_ret. intros [= <- <-].
    split_and!; [done|done|]. exists order. split_and!; [done| |].
    + rewrite Hc. unfold spec_place_order. cbn [Order]. rewrite map_app.
      apply elem_of_app. right. cbn. rewrite Hid. by left.
    + rewrite Hid. apply next_rowid_fresh.
  - destruct Hpost as (Hc & Hw & _).
    unfold mbind, M_bind, st_error, mret, M_ret. intros [= <- <-]. cbn.
    unfold clean in Hclean. split; [done|]. destruct Hw; congruence.
Qed.

End PageFacts.

(** ** The staff's product page, continued *)

Module StockroomFacts.
Import Hoare UnitOfWork Facts OrderProperties CartExtras OrderExtras.

Lemma put_stock_join (new_stock product : Z) (db : DB) (r : CartRow) :
  join_product (image (set_stock new_stock product db)) r = join_product db r.
Proof.
  unfold join_product. cbn [image set_stock Product]. rewrite lookup_alter.
  case_decide as Hid; [|done]. rewrite Hid.
  by destruct (Product db !! cart_product_id r).
Qed.

(** X25. The staff's stock update, when it returns, is committed and counts
    one row exactly when the product exists.  It changes the stock of that
    product and nothing else: every product keeps its name, description,
    price and category, every customer's cart listing is as before, and with
    a new stock of 0 or more no stock becomes negative. *)
Theorem staff_update_stock_effect w new_stock product n w' :
  staff_update_stock new_stock product w = (Ok n, w') →
  committed w' = working w' ∧
  (n = 1 ↔ is_Some (Product (working w) !! product)) ∧
  (stock <$> Product (working w') !! product
   = (λ _, new_stock) <$> Product (working w) !! product) ∧
  (∀ q, q ≠ product →
        Product (working w') !! q = Product (working w) !! q) ∧
  (∀ q, identity_of <$> Product (working w') !! q
        = identity_of <$> Product (working w) !! q) ∧
  (∀ customer, select_cart_items customer (working w')
               = select_cart_items customer (working w)) ∧
  (0 ≤ new_stock → stock_ok (working w) → stock_ok (working w')).
Proof.
  unfold staff_update_stock. intros (Hn & Hc & Hw)%execute_update_ok.
  rewrite Hc, Hw. split; [done|]. split_and!.
  - rewrite Hn. cbn. destruct (Product (working w) !! product); split;
      try done; by intros [? ?].
  - cbn. rewrite lookup_alter_eq.
    by destruct (Product (working w) !! product).
  - intros q Hq. cbn. by rewrite lookup_alter_ne.
  - intros q. cbn. rewrite lookup_alter. case_decide as Hid; [subst q|done].
    by destruct (Product (working w) !! product).
  - intros customer. unfold select_cart_items.
    rewrite (omap_ext _ (join_product (working w)))
      by apply put_stock_join. done.
  - intros Hpos Hok q p'. cbn. rewrite lookup_alter. case_decide as Hid.
    + subst q. destruct (Product (working w) !! product) as [p|]; [|done].
      intros [= <-]. by cbn.
    + apply Hok.
Qed.

Lemma new_product_id_free (m : gmap Z ProductRow) :
  m !! next_rowid (elements (dom m)) = None.
Proof.
  apply not_elem_of_dom. intros Hin%elem_of_elements.
  by apply next_rowid_fresh in Hin.
Qed.

(** X26. The "Add Product" form adds a product exactly when the name and the
    description are filled in and the price is above 0; otherwise it changes
    nothing.  The product added gets an id that no product had, so every
    existing product stays as it was, and with a stock of 0 or more no stock
    becomes negative. *)
Theorem staff_add_product_effect w nm descr pr st cat b w' :
  staff_add_product nm descr pr st cat w = (Ok b, w') →
  (b = true ↔
   Accounts.truthy nm = true ∧ Accounts.truthy descr = true ∧ 0 < pr) ∧
  (b = false → working w' = working w ∧ committed w' = committed w) ∧
  (b = true →
   committed w' = working w' ∧
   ∃ id,
     Product (working w) !! id = None ∧
     Product (working w') !! id = Some (mkProduct nm descr pr st cat) ∧
     (∀ q, q ≠ id → Product (working w') !! q = Product (working w) !! q) ∧
     (0 ≤ st → stock_ok (working w) → stock_ok (working w'))).
Proof.
  unfold staff_add_product.
  destruct (Accounts.truthy nm) eqn:Hnm; cbn [andb];
    [destruct (Accounts.truthy descr) eqn:Hde; cbn [andb];
     [case_bool_decide as Hpr|]|].
  - unfold mbind at 1. unfold M_bind.
    destruct (execute_update _ w) as [[n|e] w1] eqn:Hrun; [|done].
    apply execute_update_ok in Hrun as (_ & Hc & Hw).
    unfold mret, M_ret. intros [= <- <-]. split_and!; [done|done|].
    intros _. rewrite Hc, Hw. split; [done|].
    exists (next_rowid (elements (dom (Product (working w))))). cbn.
    split_and!.
    + apply new_product_id_free.
    + apply lookup_insert_eq.
    + intros q Hq. by rewrite lookup_insert_ne.
    + intros Hst Hok. apply map_Forall_insert_2; done.
  - unfold mbind, M_bind, st_error, mret, M_ret. intros [= <- <-]. cbn.
    split_and!; [|done|done]. split; [done|]. by intros (_ & _ & ?).
  - unfold mbind, M_bind, st_error, mret, M_ret. intros [= <- <-]. cbn.
    split_and!; [|done|done]. split; [done|]. by intros (_ & ? & _).
  - unfold mbind, M_bind, st_error, mret, M_ret. intros [= <- <-]. cbn.
    split_and!; [|done|done]. split; [done|]. by intros (? & _).
Qed.

End StockroomFacts.

(** ** Accounts: the profile page *)

Module ProfileFacts.
Import Accounts.
Import UnitOfWork Facts CartExtras AccountFacts.

Lemma update_cases (first last addr phone : string) (hashed : option string)
    (id : Z) r n r' :
  execute_update (update_customer first last addr phone hashed id) r
    = (Done n, r') →
  n = Z.of_nat (length (filter (λ c, customer_id c = id) (reg_working r))) ∧
  reg_working r' = updated first last addr phone hashed id (reg_working r) ∧
  reg_committed r' = reg_working r'.
Proof.
  unfold execute_update, update_customer.
  destruct r as [c t fs]; cbn.
  destruct fs as [|[] [|[] fs]]; cbn; intros H; by simplify_eq.
Qed.

Lemma updated_emails first last addr phone hashed id table :
  map email (updated first last addr phone hashed id table) = map email table.
Proof.
  unfold updated. induction table as [|c table IH]; [done|].
  cbn [map]. rewrite IH. by case_decide.
Qed.

Lemma updated_ids first last addr phone hashed id table :
  map customer_id (updated first last addr phone hashed id table)
  = map customer_id table.
Proof.
  unfold updated. induction table as [|c table IH]; [done|].
  cbn [map]. rewrite IH. by case_decide.
Qed.

Lemma updated_others first last addr phone hashed id table c :
  c ∈ table → customer_id c ≠ id →
  c ∈ updated first last addr phone hashed id table.
Proof.
  intros Hc Hid. apply list_elem_of_In, in_map_iff. exists c.
  split; [by rewrite decide_False|by apply list_elem_of_In].
Qed.

Lemma updated_by_email first last addr phone hashed id table c :
  NoDup (map email table) → c ∈ table → customer_id c = id →
  select_by_email (email c) (updated first last addr phone hashed id table)
  = [set_profile first last addr phone hashed c].
Proof.
  unfold select_by_email, updated.
  induction table as [|c0 table IH]; intros Hnd Hc Hid.
  { by apply elem_of_nil in Hc. }
  cbn [map] in *. apply NoDup_cons in Hnd as [Hc0 Hnd]. rewrite filter_cons.
  assert (Hmail : email (if decide (customer_id c0 = id)
                         then set_profile first last addr phone hashed c0
                         else c0) = email c0) by (by case_decide).
  apply elem_of_cons in Hc as [->|Hc].
  - rewrite decide_True by done. rewrite (decide_True (P := customer_id c0 = id)) by done.
    f_equal. apply filter_none. intros c' Hc' Heq. apply Hc0.
    apply list_elem_of_In, in_map_iff in Hc' as (c1 & <- & Hc1).
    rewrite <- Heq.
    assert (email (if decide (customer_id c1 = id)
                   then set_profile first last addr phone hashed c1
                   else c1) = email c1) as -> by (by case_decide).
    by apply elem_of_map, list_elem_of_In.
  - rewrite decide_False; [by apply IH|].
    rewrite Hmail. intros Heq. apply Hc0. rewrite Heq. by apply elem_of_map.
Qed.

Lemma id_count (id : Z) (table : list CustomerRow) :
  Z.of_nat (length (filter (λ c, customer_id c = id) table)) ≠ 0
  ↔ id ∈ map customer_id table.
Proof.
  split.
  - intros Hn. assert (Hpos : 0 < Z.of_nat (length (filter (λ c, customer_id c = id) table)))
      by lia.
    apply count_pos in Hpos as (c & Hc & <-). by apply elem_of_map.
  - intros Hin. apply list_elem_of_In, in_map_iff in Hin as (c & Hid & Hc).
    assert (Hpos : 0 < Z.of_nat (length (filter (λ c, customer_id c = id) table))).
    { apply count_pos. exists c. split; [by apply list_elem_of_In|done]. }
    lia.
Qed.

Section WithHash.
Variable h : string → string.

(** X28. The profile form never changes an email or a customer id, and it
    leaves the rows of the other customers alone.  It reports success
    exactly when the new password, if one is typed, agrees with its
    confirmation and the customer of the session has a row; after 'Passwords
    do not match' the table is as before. *)
Theorem customer_profile_update_answer id first last addr phone npw conf r
    ok msg r' :
  customer_profile_update h id first last addr phone npw conf r
    = (Done (ok, msg), r') →
  map email (reg_working r') = map email (reg_working r) ∧
  map customer_id (reg_working r') = map customer_id (reg_working r) ∧
  (∀ c, c ∈ reg_working r → customer_id c ≠ id → c ∈ reg_working r') ∧
  (ok = true ↔
   (truthy npw = true → npw = conf) ∧ id ∈ map customer_id (reg_working r)) ∧
  (msg = "Passwords do not match"%string →
   reg_working r' = reg_working r ∧ reg_committed r' = reg_committed r).
Proof.
  unfold customer_profile_update.
  assert (Hrun : ∀ hashed,
    (n ← execute_update (update_customer first last addr phone hashed id);
     mret (if decide (n = 0)
           then (false, "Failed to update profile"%string)
           else (true, "Profile updated successfully!"%string))) r
      = (Done (ok, msg), r') →
    map email (reg_working r') = map email (reg_working r) ∧
    map customer_id (reg_working r') = map customer_id (reg_working r) ∧
    (∀ c, c ∈ reg_working r → customer_id c ≠ id → c ∈ reg_working r') ∧
    (ok = true ↔ id ∈ map customer_id (reg_working r)) ∧
    msg ≠ "Passwords do not match"%string).
  { intros hashed. unfold mbind, R_bind.
    destruct (execute_update _ r) as [[n|e] r1] eqn:Hupd; [|done].
    apply update_cases in Hupd as (Hn & Hw & Hc).
    unfold mret, R_ret. intros Heq.
    assert (r1 = r' ∧ (ok, msg) = (if decide (n = 0)
             then (false, "Failed to update profile"%string)
             else (true, "Profile updated successfully!"%string))) as [<- Hres]
      by (by injection Heq as -> ->).
    rewrite Hw. split_and!.
    - apply updated_emails.
    - apply updated_ids.
    - intros c. apply updated_others.
    - rewrite <- id_count, <- Hn. case_decide; simplify_eq; split; done.
    - case_decide; by simplify_eq. }
  destruct (truthy npw) eqn:Hnpw.
  - case_bool_decide as Hconf.
    + intros (H1 & H2 & H3 & H4 & H5)%Hrun. split_and!; try done.
      rewrite H4. split; [by intros ?|by intros [_ ?]].
    + unfold mret, R_ret. intros [= <- <- <-]. split_and!; try done.
      split; [done|]. intros [Hc _]. by specialize (Hc eq_refl).
  - intros (H1 & H2 & H3 & H4 & H5)%Hrun. split_and!; try done.
    rewrite H4. split; [by intros ?|by intros [_ ?]].
Qed.

(** X29. After the profile form has stored a new password, the customer
    logs in with the same email and the new password: the login, when it
    returns, opens the session of that customer, under the new name. *)
Theorem password_change_then_login c first last addr phone npw r ok msg r1
    res r2 :
  emails_unique (reg_working r) → c ∈ reg_working r →
  truthy (email c) = true → truthy npw = true →
  customer_profile_update h (customer_id c) first last addr phone npw npw r
    = (Done (ok, msg), r1) →
  customer_login h (email c) npw r1 = (Done res, r2) →
  ok = true ∧
  res = inr (mkSession (customer_id c) (first +:+ " " +:+ last) (email c)).
Proof.
  intros Hu Hc Hmail Hnpw. unfold customer_profile_update.
  rewrite Hnpw, bool_decide_true by done. unfold mbind at 1. unfold R_bind.
  destruct (execute_update _ r) as [[n|e] r1'] eqn:Hupd; [|done].
  apply update_cases in Hupd as (Hn & Hw & _).
  assert (n ≠ 0) as Hn0.
  { rewrite Hn. apply id_count. by apply elem_of_map. }
  rewrite decide_False by done. unfold mret, R_ret. intros [= <- <- <-].
  intros Hlogin. split; [done|]. revert Hlogin.
  unfold customer_login. rewrite Hmail, Hnpw. cbn [andb].
  unfold mbind, R_bind.
  destruct (get_customer_by_email (email c) r1') as [z r2'] eqn:Hlook.
  apply lookup_cases in Hlook as (_ & _ & [-> | ->]); [done|].
  unfold mret, R_ret. intros [= <- <-].
  rewrite Hw, updated_by_email by done. cbn.
  unfold verify_password, hash_password. by rewrite bool_decide_true.
Qed.

End WithHash.

End ProfileFacts.

(** ** The further properties at work *)

Module MoreExamples.
Import Hoare UnitOfWork Facts OrderProperties CartProperties CartExtras
  OrderExtras BackofficeFacts AccountFacts PageFacts StockroomFacts
  ProfileFacts.

Lemma remove_from_cart_effect_witness :
  let w := shop [] in
  let id := 1 in
  let b := true in
  let w' := (remove_from_cart 1 (shop [])).2 in
  remove_from_cart id w = (Ok b, w') ∧
  (b = true ↔ id ∈ map cart_id (Cart (working w))) ∧
  Cart (working w') = filter (λ r, cart_id r ≠ id) (Cart (working w)) ∧
  (Product (working w'), Payment (working w'), Shipment (working w'),
   Order (working w'), Order_Item (working w'))
  = (Product (working w), Payment (working w), Shipment (working w),
     Order (working w), Order_Item (working w)) ∧
  committed w' = working w' ∧
  (b = false → working w' = working w) ∧
  (b = true → cart_keys_ok (working w) →
   S (length (Cart (working w'))) = length (Cart (working w))).
Proof.
  cbv zeta. split; [vm_compute; reflexivity|].
  apply (remove_from_cart_effect (shop []) 1 true). vm_compute. reflexivity.
Defined.

Lemma add_then_remove_witness :
  let w := shop [] in
  let w1 := (add_to_cart 9 1 2 (shop [])).2 in
  let row := mkCart 4 9 1 2 200 in
  let w2 := (remove_from_cart 4 (add_to_cart 9 1 2 (shop [])).2).2 in
  lines_of 9 1 (working w) = [] ∧
  add_to_cart 9 1 2 w = (Ok true, w1) ∧
  lines_of 9 1 (working w1) = [row] ∧
  remove_from_cart (cart_id row) w1 = (Ok true, w2) ∧
  true = true ∧ working w2 = working w ∧ committed w2 = working w.
Proof.
  cbv zeta. split; [reflexivity|]. split; [vm_compute; reflexivity|].
  split; [vm_compute; reflexivity|]. split; [vm_compute; reflexivity|].
  apply (add_then_remove (shop []) 9 1 2 true
           (add_to_cart 9 1 2 (shop [])).2 (mkCart 4 9 1 2 200) true);
    vm_compute; reflexivity.
Defined.

Lemma add_to_cart_isolated_witness :
  let w := shop [] in
  let w' := (add_to_cart 7 1 2 (shop [])).2 in
  cart_keys_ok (working w) ∧
  add_to_cart 7 1 2 w = (Ok true, w') ∧
  (∀ c2 p2, (c2, p2) ≠ (7, 1) →
            lines_of c2 p2 (working w') = lines_of c2 p2 (working w)) ∧
  (∀ c2, c2 ≠ 7 →
         cart_of c2 (working w') = cart_of c2 (working w) ∧
         select_cart_items c2 (working w') = select_cart_items c2 (working w)) ∧
  (Product (working w'), Payment (working w'), Shipment (working w'),
   Order (working w'), Order_Item (working w'))
  = (Product (working w), Payment (working w), Shipment (working w),
     Order (working w), Order_Item (working w)).
Proof.
  cbv zeta. split; [apply (bool_decide_unpack _); vm_compute; exact I|].
  split; [vm_compute; reflexivity|].
  apply (add_to_cart_isolated (shop []) 7 1 2 true).
  - apply (bool_decide_unpack _). vm_compute. exact I.
  - vm_compute. reflexivity.
Defined.

(** The commit fails: the exception leaves, the committed cart is as before. *)
Lemma add_to_cart_commits_or_raises_witness :
  let w := shop [false; false; true] in
  clean w ∧
  match add_to_cart 7 1 2 w with
  | (Ok b, w') =>
      b = true ∧ clean w' ∧
      committed w' = cart_target 7 1 2 (hd 0 (clock w)) (committed w)
  | (Raise _, w') => committed w' = committed w
  end.
Proof.
  cbv zeta. split; [reflexivity|].
  apply (add_to_cart_commits_or_raises (shop [false; false; true]) 7 1 2).
  reflexivity.
Defined.

Lemma add_to_cart_keeps_unique_witness :
  let w := shop [] in
  let w' := (add_to_cart 7 1 2 (shop [])).2 in
  cart_unique (working w) ∧
  add_to_cart 7 1 2 w = (Ok true, w') ∧
  cart_unique (working w') ∧
  ∃ row,
    lines_of 7 1 (working w') = [row] ∧
    cart_quantity row = cart_quantity_of 7 1 (working w) + 2.
Proof.
  cbv zeta. split; [apply (bool_decide_unpack _); vm_compute; exact I|].
  split; [vm_compute; reflexivity|].
  apply (add_to_cart_keeps_unique (shop []) 7 1 2 true).
  - apply (bool_decide_unpack _). vm_compute. exact I.
  - vm_compute. reflexivity.
Defined.


Lemma create_order_stock_ok_iff_witness :
  create_order 7 "PayPal" "12 Elm St" (shop []) = (Ok (Some 2), shop_after) ∧
  (stock_ok (committed shop_after) ↔ enough_stock 7 (working (shop []))).
Proof.
  split; [vm_compute; reflexivity|].
  apply (create_order_stock_ok_iff (shop []) 7 "PayPal" "12 Elm St" 2).
  vm_compute. reflexivity.
Defined.

Lemma create_order_keeps_catalogue_witness :
  create_order 7 "PayPal" "12 Elm St" (shop []) = (Ok (Some 2), shop_after) ∧
  identity_of <$> Product (committed shop_after) !! 1 =
  identity_of <$> Product (working (shop [])) !! 1.
Proof.
  split; [vm_compute; reflexivity|].
  apply (create_order_keeps_catalogue (shop []) 7 "PayPal" "12 Elm St" 2).
  vm_compute. reflexivity.
Defined.

Lemma create_order_other_carts_witness :
  8 ≠ 7 ∧
  create_order 7 "PayPal" "12 Elm St" (shop []) = (Ok (Some 2), shop_after) ∧
  cart_of 8 (committed shop_after) = cart_of 8 (working (shop [])) ∧
  select_cart_items 8 (committed shop_after)
  = select_cart_items 8 (working (shop [])).
Proof.
  split; [discriminate|]. split; [vm_compute; reflexivity|].
  apply (create_order_other_carts (shop []) 7 "PayPal" "12 Elm St" 2).
  - discriminate.
  - vm_compute. reflexivity.
Defined.

Lemma create_order_references_witness :
  let w := shop [] in
  let w' := shop_after in
  create_order 7 "PayPal" "12 Elm St" w = (Ok (Some 2), w') ∧
  ∃ p s o,
    Payment (committed w') = Payment (working w) ++ [p] ∧
    Shipment (committed w') = Shipment (working w) ++ [s] ∧
    Order (committed w') = Order (working w) ++ [o] ∧
    order_id o = 2 ∧
    order_payment_id o = payment_id p ∧
    order_shipment_id o = shipment_id s ∧
    (payment_id p ∉ map payment_id (Payment (working w))) ∧
    (shipment_id s ∉ map shipment_id (Shipment (working w))) ∧
    (∀ o', o' ∈ Order (working w) → order_id o' < 2) ∧
    order_customer_id o = 7 ∧
    payment_customer_id p = 7 ∧
    payment_method p = "PayPal"%string ∧
    address s = "12 Elm St"%string.
Proof.
  cbv zeta. split; [vm_compute; reflexivity|].
  apply (create_order_references (shop []) 7 "PayPal" "12 Elm St" 2).
  vm_compute. reflexivity.
Defined.

Lemma create_order_tracking_witness :
  let w := shop [] in
  let w' := shop_after in
  create_order 7 "PayPal" "12 Elm St" w = (Ok (Some 2), w') ∧
  ∃ s code,
    Shipment (committed w') = Shipment (working w) ++ [s] ∧
    tracking_number s = ("UNIQLO" +:+ code)%string ∧
    code = Str.upper (Str.prefix 8 (hd ""%string (uuids w))) ∧
    Forall (λ c, ¬ lowercase c) (chars code) ∧
    String.length code = (8 `min` String.length (hd ""%string (uuids w)))%nat ∧
    ((8 ≤ String.length (hd ""%string (uuids w)))%nat →
     String.length (tracking_number s) = 14%nat).
Proof.
  cbv zeta. split; [vm_compute; reflexivity|].
  apply (create_order_tracking (shop []) 7 "PayPal" "12 Elm St" 2).
  vm_compute. reflexivity.
Defined.

Lemma create_order_twice_witness :
  create_order 7 "PayPal" "12 Elm St" (shop []) = (Ok (Some 2), shop_after) ∧
  ∃ w2,
    create_order 7 "Credit Card" "12 Elm St" shop_after = (Ok None, w2) ∧
    committed w2 = committed shop_after ∧
    working w2 = working shop_after.
Proof.
  split; [vm_compute; reflexivity|].
  apply (create_order_twice (shop []) 7 "PayPal" "12 Elm St" 2).
  vm_compute. reflexivity.
Defined.

Lemma create_order_keeps_keys_witness :
  let w := shop [] in
  clean w ∧ keys_ok (working w) ∧ cart_unique (working w) ∧
  create_order 7 "PayPal" "12 Elm St" w = (Ok (Some 2), shop_after) ∧
  keys_ok (committed shop_after) ∧ cart_unique (committed shop_after).
Proof.
  cbv zeta. split; [reflexivity|].
  split; [apply (bool_decide_unpack _); vm_compute; exact I|].
  split; [apply (bool_decide_unpack _); vm_compute; exact I|].
  split; [vm_compute; reflexivity|].
  apply (create_order_keeps_keys (shop []) 7 "PayPal" "12 Elm St" (Some 2)).
  - reflexivity.
  - apply (bool_decide_unpack _). vm_compute. exact I.
  - apply (bool_decide_unpack _). vm_compute. exact I.
  - vm_compute. reflexivity.
Defined.

Lemma get_customer_orders_lists_witness :
  let w := shop_after in
  let w' := (get_customer_orders 7 shop_after).2 in
  let l := [mkView 2 202 19950 "Processing" (Some "UNIQLO3F2A9C41"%string)] in
  get_customer_orders 7 w = (Ok l, w') ∧
  working w' = working w ∧ committed w' = committed w ∧
  l ≡ₚ joined_orders 7 (working w) ∧
  StronglySorted newest_first l ∧
  (∀ d, filter (λ v, ov_order_date v = d) l =
        filter (λ v, ov_order_date v = d) (joined_orders 7 (working w))) ∧
  (∀ v, v ∈ joined_orders 7 (working w) ↔
        ∃ o, o ∈ Order (working w) ∧ order_customer_id o = 7 ∧
             ov_order_id v = order_id o ∧ ov_order_date v = order_date o ∧
             ov_total_amount v = total_amount o ∧ ov_status v = status o ∧
             ((∃ s, s ∈ Shipment (working w) ∧
                    shipment_id s = order_shipment_id o ∧
                    ov_tracking_number v = Some (tracking_number s)) ∨
              (ov_tracking_number v = None ∧
               ∀ s, s ∈ Shipment (working w) →
                    shipment_id s ≠ order_shipment_id o))) ∧
  (NoDup (map shipment_id (Shipment (working w))) →
   l ≡ₚ map (λ o, mkView (order_id o) (order_date o) (total_amount o)
                         (status o)
                         (tracking_number <$>
                            head (filter (λ s, shipment_id s = order_shipment_id o)
                                         (Shipment (working w)))))
            (filter (λ o, order_customer_id o = 7) (Order (working w)))).
Proof.
  cbv zeta. split; [vm_compute; reflexivity|].
  apply (get_customer_orders_lists shop_after 7). vm_compute. reflexivity.
Defined.

(** Three orders of one date and a later one: the later one first, the three
    in the order of the table. *)
Example equal_dates_keep_order :
  map (λ o, (order_id o, order_date o)) (Order ledger)
    = [(1, 500); (2, 500); (3, 500); (4, 900); (5, 700)] ∧
  map ov_order_id (select_customer_orders 7 ledger) = [4; 1; 2; 3].
Proof. vm_compute. done. Qed.

Lemma placed_order_is_listed_witness :
  let w := shop [] in
  let w2 := (get_customer_orders 7 shop_after).2 in
  create_order 7 "PayPal" "12 Elm St" w = (Ok (Some 2), shop_after) ∧
  get_customer_orders 7 shop_after
    = (Ok [mkView 2 202 19950 "Processing" (Some "UNIQLO3F2A9C41"%string)], w2) ∧
  mkView 2 (t_order_of w)
         (sum (map ci_total_price (select_cart_items 7 (working w))))
         "Processing" (Some (tracking_of w))
  ∈ [mkView 2 202 19950 "Processing" (Some "UNIQLO3F2A9C41"%string)].
Proof.
  cbv zeta. split; [vm_compute; reflexivity|].
  split; [vm_compute; reflexivity|].
  apply (placed_order_is_listed (shop []) 7 "PayPal" "12 Elm St" 2 shop_after
           _ (get_customer_orders 7 shop_after).2);
    vm_compute; reflexivity.
Defined.

(** From 'Shipped' back to 'Pending': no transition is refused. *)
Lemma staff_update_status_shown_witness :
  let w := shop [] in
  let w' := (staff_update_status "Pending" 1 (shop [])).2 in
  staff_update_status "Pending" 1 w = (Ok 1, w') ∧
  committed w' = working w' ∧
  (∀ customer,
     select_customer_orders customer (working w') =
     map (restatus "Pending" 1) (select_customer_orders customer (working w))) ∧
  map (λ o, (order_id o, order_customer_id o, order_date o, total_amount o,
             order_payment_id o, order_shipment_id o))
      (Order (working w'))
  = map (λ o, (order_id o, order_customer_id o, order_date o, total_amount o,
               order_payment_id o, order_shipment_id o))
        (Order (working w)) ∧
  (∀ o, o ∈ Order (working w') → order_id o = 1 →
        status o = "Pending"%string) ∧
  (Product (working w'), Cart (working w'), Payment (working w'),
   Shipment (working w'), Order_Item (working w'))
  = (Product (working w), Cart (working w), Payment (working w),
     Shipment (working w), Order_Item (working w)) ∧
  1 = Z.of_nat (length (filter (λ o, order_id o = 1) (Order (working w)))).
Proof.
  cbv zeta. split; [vm_compute; reflexivity|].
  apply (staff_update_status_shown (shop []) "Pending" 1 1).
  vm_compute. reflexivity.
Defined.

Lemma create_customer_answer_witness :
  let r := desk [] in
  let r' := desk_after in
  Accounts.create_customer toy_digest "Bob" "Ray" "bob@example.com" "hunter2"
    "" "" r = (Accounts.Done true, r') ∧
  (true = false ↔ "bob@example.com"%string ∈ map Accounts.email (Accounts.reg_working r)) ∧
  (true = false →
   Accounts.reg_working r' = Accounts.reg_working r ∧
   Accounts.reg_committed r' = Accounts.reg_committed r) ∧
  (true = true →
   ∃ c, Accounts.reg_working r' = Accounts.reg_working r ++ [c] ∧
        Accounts.reg_committed r' = Accounts.reg_working r' ∧
        (Accounts.customer_id c ∉ map Accounts.customer_id (Accounts.reg_working r)) ∧
        (Accounts.first_name c, Accounts.last_name c, Accounts.email c,
         Accounts.customer_address c, Accounts.phone_number c)
          = ("Bob", "Ray", "bob@example.com", "", "")%string ∧
        Accounts.password c = toy_digest "hunter2").
Proof.
  cbv zeta. split; [vm_compute; reflexivity|].
  apply (create_customer_answer toy_digest "Bob" "Ray" "bob@example.com"
           "hunter2" "" "" (desk []) true desk_after).
  vm_compute. reflexivity.
Defined.

Lemma create_customer_keeps_emails_unique_witness :
  Accounts.emails_unique (Accounts.reg_working (desk [])) ∧
  Accounts.emails_unique
    (Accounts.reg_working
       (Accounts.create_customer toy_digest "Ann" "Other" "ann@example.com"
          "pw" "" "" (desk [])).2).
Proof.
  split; [apply (bool_decide_unpack _); vm_compute; exact I|].
  apply (create_customer_keeps_emails_unique toy_digest).
  apply (bool_decide_unpack _). vm_compute. exact I.
Defined.

Lemma signup_then_login_witness :
  let r := desk [] in
  let r2 := (Accounts.customer_login toy_digest "bob@example.com" "hunter2"
               desk_after).2 in
  Accounts.truthy "bob@example.com" = true ∧
  Accounts.truthy "hunter2" = true ∧
  Accounts.create_customer toy_digest "Bob" "Ray" "bob@example.com" "hunter2"
    "" "" r = (Accounts.Done true, desk_after) ∧
  Accounts.customer_login toy_digest "bob@example.com" "hunter2" desk_after
    = (Accounts.Done (inr (Accounts.mkSession 2 "Bob Ray" "bob@example.com")), r2) ∧
  inr (Accounts.mkSession 2 "Bob Ray" "bob@example.com")
  = (inr (Accounts.mkSession
            (next_rowid (map Accounts.customer_id (Accounts.reg_working r)))
            ("Bob" +:+ " " +:+ "Ray") "bob@example.com")
     : string + Accounts.Session) ∧
  Accounts.reg_working r2 = Accounts.reg_working desk_after.
Proof.
  cbv zeta. split; [reflexivity|]. split; [reflexivity|].
  split; [vm_compute; reflexivity|]. split; [vm_compute; reflexivity|].
  apply (signup_then_login toy_digest "Bob" "Ray" "bob@example.com" "hunter2"
           "" "" (desk []) desk_after);
    vm_compute; reflexivity.
Defined.

Lemma customer_login_sound_witness :
  let r := desk [] in
  let res : string + Accounts.Session :=
    inr (Accounts.mkSession 1 "Ann Lee" "ann@example.com") in
  let r' := (Accounts.customer_login toy_digest "ann@example.com" "s3cret"
               (desk [])).2 in
  Accounts.customer_login toy_digest "ann@example.com" "s3cret" r
    = (Accounts.Done res, r') ∧
  Accounts.reg_working r' = Accounts.reg_working r ∧
  Accounts.reg_committed r' = Accounts.reg_committed r ∧
  (∀ session, res = inr session →
     ∃ c, c ∈ Accounts.reg_working r ∧
          Accounts.email c = "ann@example.com"%string ∧
          Accounts.password c = toy_digest "s3cret" ∧
          session = Accounts.mkSession (Accounts.customer_id c)
                      (Accounts.first_name c +:+ " " +:+ Accounts.last_name c)
                      "ann@example.com") ∧
  (Accounts.truthy "ann@example.com" = true → Accounts.truthy "s3cret" = true →
   "ann@example.com"%string ∉ map Accounts.email (Accounts.reg_working r) →
   res = inl "Invalid email or password"%string).
Proof.
  cbv zeta. split; [vm_compute; reflexivity|].
  apply (customer_login_sound toy_digest "ann@example.com" "s3cret" (desk [])).
  vm_compute. reflexivity.
Defined.

Lemma customer_signup_answer_witness :
  let r := desk [] in
  let r' := (Accounts.customer_signup toy_digest "Ann" "Other" "ann@example.com"
               "pw" "pw" "" "" (desk [])).2 in
  Accounts.customer_signup toy_digest "Ann" "Other" "ann@example.com" "pw" "pw"
    "" "" r = (Accounts.Done (false, "Email already exists"%string), r') ∧
  (false = true ↔
   (Accounts.truthy "Ann" && Accounts.truthy "Other" &&
    Accounts.truthy "ann@example.com" && Accounts.truthy "pw" &&
    Accounts.truthy "pw" = true)%bool ∧ "pw"%string = "pw"%string ∧
   "ann@example.com"%string ∉ map Accounts.email (Accounts.reg_working r)) ∧
  (false = false →
   Accounts.reg_working r' = Accounts.reg_working r ∧
   Accounts.reg_committed r' = Accounts.reg_committed r).
Proof.
  cbv zeta. split; [vm_compute; reflexivity|].
  apply (customer_signup_answer toy_digest "Ann" "Other" "ann@example.com"
           "pw" "pw" "" "" (desk []) false "Email already exists").
  vm_compute. reflexivity.
Defined.

Lemma place_order_click_honest_witness :
  let w := shop [] in
  let w' := (place_order_click 7 "PayPal" "12 Elm St" (shop [])).2 in
  clean w ∧ order_ids_positive (working w) ∧
  place_order_click 7 "PayPal" "12 Elm St" w
    = (Ok (Some "Order placed successfully! Order ID: 2"%string), w') ∧
  Accounts.truthy "12 Elm St" = true ∧
  committed w' = placed 7 "PayPal" "12 Elm St" w ∧
  ∃ order,
    "Order placed successfully! Order ID: 2"%string
    = ("Order placed successfully! Order ID: " +:+ pretty order)%string ∧
    order ∈ map order_id (Order (committed w')) ∧
    (order ∉ map order_id (Order (working w))).
Proof.
  cbv zeta. split; [reflexivity|].
  split; [apply (bool_decide_unpack _); vm_compute; exact I|].
  split; [vm_compute; reflexivity|].
  apply (place_order_click_honest (shop []) 7 "PayPal" "12 Elm St"
           (Some "Order placed successfully! Order ID: 2"%string)).
  - reflexivity.
  - apply (bool_decide_unpack _). vm_compute. exact I.
  - vm_compute. reflexivity.
Defined.

Lemma staff_update_stock_effect_witness :
  let w := shop [] in
  let w' := (staff_update_stock 120 1 (shop [])).2 in
  staff_update_stock 120 1 w = (Ok 1, w') ∧
  committed w' = working w' ∧
  (1 = 1 ↔ is_Some (Product (working w) !! 1)) ∧
  (stock <$> Product (working w') !! 1
   = (λ _, 120) <$> Product (working w) !! 1) ∧
  (∀ q, q ≠ 1 → Product (working w') !! q = Product (working w) !! q) ∧
  (∀ q, identity_of <$> Product (working w') !! q
        = identity_of <$> Product (working w) !! q) ∧
  (∀ customer, select_cart_items customer (working w')
               = select_cart_items customer (working w)) ∧
  (0 ≤ 120 → stock_ok (working w) → stock_ok (working w')).
Proof.
  cbv zeta. split; [vm_compute; reflexivity|].
  apply (staff_update_stock_effect (shop []) 120 1 1). vm_compute. reflexivity.
Defined.

Lemma staff_add_product_effect_witness :
  let w := shop [] in
  let w' := (staff_add_product "Socks" "Warm socks" 590 40 4 (shop [])).2 in
  staff_add_product "Socks" "Warm socks" 590 40 4 w = (Ok true, w') ∧
  (true = true ↔
   Accounts.truthy "Socks" = true ∧ Accounts.truthy "Warm socks" = true ∧
   0 < 590) ∧
  (true = false → working w' = working w ∧ committed w' = committed w) ∧
  (true = true →
   committed w' = working w' ∧
   ∃ id,
     Product (working w) !! id = None ∧
     Product (working w') !! id = Some (mkProduct "Socks" "Warm socks" 590 40 4) ∧
     (∀ q, q ≠ id → Product (working w') !! q = Product (working w) !! q) ∧
     (0 ≤ 40 → stock_ok (working w) → stock_ok (working w'))).
Proof.
  cbv zeta. split; [vm_compute; reflexivity|].
  apply (staff_add_product_effect (shop []) "Socks" "Warm socks" 590 40 4 true).
  vm_compute. reflexivity.
Defined.

Lemma customer_profile_update_answer_witness :
  let r := desk [] in
  let r' := (Accounts.customer_profile_update toy_digest 1 "Ann" "Lee-Park"
               "7 Fir Ln" "555-0101" "n3w" "other" (desk [])).2 in
  Accounts.customer_profile_update toy_digest 1 "Ann" "Lee-Park" "7 Fir Ln"
    "555-0101" "n3w" "other" r
    = (Accounts.Done (false, "Passwords do not match"%string), r') ∧
  map Accounts.email (Accounts.reg_working r')
  = map Accounts.email (Accounts.reg_working r) ∧
  map Accounts.customer_id (Accounts.reg_working r')
  = map Accounts.customer_id (Accounts.reg_working r) ∧
  (∀ c, c ∈ Accounts.reg_working r → Accounts.customer_id c ≠ 1 →
        c ∈ Accounts.reg_working r') ∧
  (false = true ↔
   (Accounts.truthy "n3w" = true → "n3w"%string = "other"%string) ∧
   1 ∈ map Accounts.customer_id (Accounts.reg_working r)) ∧
  ("Passwords do not match"%string = "Passwords do not match"%string →
   Accounts.reg_working r' = Accounts.reg_working r ∧
   Accounts.reg_committed r' = Accounts.reg_committed r).
Proof.
  cbv zeta. split; [vm_compute; reflexivity|].
  apply (customer_profile_update_answer toy_digest 1 "Ann" "Lee-Park" "7 Fir Ln"
           "555-0101" "n3w" "other" (desk [])).
  vm_compute. reflexivity.
Defined.

Lemma password_change_then_login_witness :
  let r := desk [] in
  let r1 := (Accounts.customer_profile_update toy_digest 1 "Ann" "Lee-Park"
               "7 Fir Ln" "555-0101" "n3w" "n3w" (desk [])).2 in
  let r2 := (Accounts.customer_login toy_digest "ann@example.com" "n3w"
               (Accounts.customer_profile_update toy_digest 1 "Ann" "Lee-Park"
                  "7 Fir Ln" "555-0101" "n3w" "n3w" (desk [])).2).2 in
  Accounts.emails_unique (Accounts.reg_working r) ∧
  ann ∈ Accounts.reg_working r ∧
  Accounts.truthy (Accounts.email ann) = true ∧
  Accounts.truthy "n3w" = true ∧
  Accounts.customer_profile_update toy_digest (Accounts.customer_id ann) "Ann"
    "Lee-Park" "7 Fir Ln" "555-0101" "n3w" "n3w" r
    = (Accounts.Done (true, "Profile updated successfully!"%string), r1) ∧
  Accounts.customer_login toy_digest (Accounts.email ann) "n3w" r1
    = (Accounts.Done (inr (Accounts.mkSession 1 "Ann Lee-Park" "ann@example.com")),
       r2) ∧
  true = true ∧
  (inr (Accounts.mkSession 1 "Ann Lee-Park" "ann@example.com")
   : string + Accounts.Session)
  = inr (Accounts.mkSession (Accounts.customer_id ann)
           ("Ann" +:+ " " +:+ "Lee-Park") (Accounts.email ann)).
Proof.
  cbv zeta. split; [apply (bool_decide_unpack _); vm_compute; exact I|].
  split; [left|].
  split; [reflexivity|]. split; [reflexivity|].
  split; [vm_compute; reflexivity|]. split; [vm_compute; reflexivity|].
  apply (password_change_then_login toy_digest ann "Ann" "Lee-Park" "7 Fir Ln"
           "555-0101" "n3w" (desk []) true "Profile updated successfully!"
           (Accounts.customer_profile_update toy_digest 1 "Ann" "Lee-Park"
              "7 Fir Ln" "555-0101" "n3w" "n3w" (desk [])).2
           (inr (Accounts.mkSession 1 "Ann Lee-Park" "ann@example.com"))
           (Accounts.customer_login toy_digest "ann@example.com" "n3w"
              (Accounts.customer_profile_update toy_digest 1 "Ann" "Lee-Park"
                 "7 Fir Ln" "555-0101" "n3w" "n3w" (desk [])).2).2).
  - apply (bool_decide_unpack _). vm_compute. exact I.
  - left.
  - reflexivity.
  - reflexivity.
  - vm_compute. reflexivity.
  - vm_compute. reflexivity.
Defined.

End MoreExamples.
